(** * STT-Diktat-Agent: state machine and background services

    A shallow embedding of the decision logic of the dictation agent:
    - [domain/states.py], [domain/events.py]: the state and event model;
    - [app/state_machine.py]: the transition function, the state owner and
      the list of allowed events;
    - [services/snippet_tracker_service.py]: the cumulative-time tracker;
    - [services/stt_service.py]: the readiness guards of the two
      transcription entry points;
    - [services/doctor_service.py]: the preflight check sequence;
    - [services/recording_service.py]: the buffer readers.

    Python objects are records, the module-level logger is a list of
    records threaded through the calls that write to it, worker threads are
    deferred computations over the shared service object, and the external
    collaborators (file system, inference engine, audio probe) are
    oracles collected in environment records. *)

From Stdlib Require Import ZArith QArith List String Bool Lia PeanoNat.
From Stdlib Require Floats.PrimFloat DecimalString.
Import ListNotations.
Open Scope string_scope.

(* ------------------------------------------------------------------ *)
(** ** Logging ([util/logging_setup.py])

    A record is the level and the formatted message; the formatter adds a
    timestamp, which no function below computes. *)

Module Log.

Inductive Level := INFO | WARNING | ERROR.

Record Entry := mk { level : Level; message : string }.

Definition info (m : string) : Entry := mk INFO m.
Definition warning (m : string) : Entry := mk WARNING m.
Definition error (m : string) : Entry := mk ERROR m.

End Log.

(* ------------------------------------------------------------------ *)
(** ** [domain/states.py] *)

Inductive AppState :=
| INIT | READY | RECORDING | PAUSED | PROCESSING | DONE | ERROR.

(** [AppState.__str__]: the enum value. *)
Definition AppState_str (s : AppState) : string :=
  match s with
  | INIT => "INIT" | READY => "READY" | RECORDING => "RECORDING"
  | PAUSED => "PAUSED" | PROCESSING => "PROCESSING" | DONE => "DONE"
  | ERROR => "ERROR"
  end.

Definition AppState_eqb (a b : AppState) : bool :=
  match a, b with
  | INIT, INIT | READY, READY | RECORDING, RECORDING | PAUSED, PAUSED
  | PROCESSING, PROCESSING | DONE, DONE | ERROR, ERROR => true
  | _, _ => false
  end.

Definition all_states : list AppState :=
  [INIT; READY; RECORDING; PAUSED; PROCESSING; DONE; ERROR].

(* ------------------------------------------------------------------ *)
(** ** [domain/events.py]

    The frozen dataclasses.  [transition] accepts any object, so the last
    constructor stands for an instance of any class that is none of the
    nine defined in the module. *)

Inductive AppEvent :=
| KeyF9Pressed
| KeyF10Pressed
| KeyF8Pressed
| KeyF2Pressed
| QuitRequested
| FullSTTDone (transcript job_id : string)
| FullSTTFail (error_code error_hint job_id : string)
| DoctorCompleted (success : bool) (error_code error_hint : option string)
| AudioLevelUpdated (level : Q) (thread_id : Z)
| OtherObject (cls : string) (payload : string).

(** [type(event)]: the class of an event, without its fields. *)
Inductive EventType :=
| TKeyF9Pressed | TKeyF10Pressed | TKeyF8Pressed | TKeyF2Pressed
| TQuitRequested | TFullSTTDone | TFullSTTFail | TDoctorCompleted
| TAudioLevelUpdated | TOther (cls : string).

Definition type_of (e : AppEvent) : EventType :=
  match e with
  | KeyF9Pressed => TKeyF9Pressed
  | KeyF10Pressed => TKeyF10Pressed
  | KeyF8Pressed => TKeyF8Pressed
  | KeyF2Pressed => TKeyF2Pressed
  | QuitRequested => TQuitRequested
  | FullSTTDone _ _ => TFullSTTDone
  | FullSTTFail _ _ _ => TFullSTTFail
  | DoctorCompleted _ _ _ => TDoctorCompleted
  | AudioLevelUpdated _ _ => TAudioLevelUpdated
  | OtherObject c _ => TOther c
  end.

(** [type(event).__name__]. *)
Definition type_name (t : EventType) : string :=
  match t with
  | TKeyF9Pressed => "KeyF9Pressed"
  | TKeyF10Pressed => "KeyF10Pressed"
  | TKeyF8Pressed => "KeyF8Pressed"
  | TKeyF2Pressed => "KeyF2Pressed"
  | TQuitRequested => "QuitRequested"
  | TFullSTTDone => "FullSTTDone"
  | TFullSTTFail => "FullSTTFail"
  | TDoctorCompleted => "DoctorCompleted"
  | TAudioLevelUpdated => "AudioLevelUpdated"
  | TOther c => c
  end.

Definition EventType_eqb (a b : EventType) : bool :=
  match a, b with
  | TKeyF9Pressed, TKeyF9Pressed | TKeyF10Pressed, TKeyF10Pressed
  | TKeyF8Pressed, TKeyF8Pressed | TKeyF2Pressed, TKeyF2Pressed
  | TQuitRequested, TQuitRequested | TFullSTTDone, TFullSTTDone
  | TFullSTTFail, TFullSTTFail | TDoctorCompleted, TDoctorCompleted
  | TAudioLevelUpdated, TAudioLevelUpdated => true
  | TOther x, TOther y => String.eqb x y
  | _, _ => false
  end.

(* ------------------------------------------------------------------ *)
(** ** [app/state_machine.py] *)

Module StateMachine.

Record t := mk { _current_state : AppState }.

(** The [current_state] property. *)
Definition current_state (self : t) : AppState := _current_state self.

(** [_calculate_transition]: the [isinstance] cascade.  The second
    component is what the function writes to the logger. *)
Definition _calculate_transition (from_state : AppState) (event : AppEvent)
  : option AppState * list Log.Entry :=
  match event with
  | KeyF9Pressed =>
      (match from_state with
       | READY => Some RECORDING
       | RECORDING => Some PAUSED
       | PAUSED => Some RECORDING
       | DONE => Some RECORDING
       | _ => None
       end, [])
  | KeyF10Pressed =>
      (match from_state with
       | RECORDING => Some PROCESSING
       | PAUSED => Some PROCESSING
       | _ => None
       end, [])
  | KeyF8Pressed =>
      (match from_state with
       | DONE => Some PROCESSING
       | _ => None
       end, [])
  | KeyF2Pressed =>
      (match from_state with
       | READY | DONE | ERROR => Some INIT
       | _ => None
       end, [])
  | DoctorCompleted success _ _ =>
      (match from_state with
       | INIT => if success then Some READY else Some ERROR
       | _ => None
       end, [])
  | FullSTTDone _ _ =>
      (match from_state with
       | PROCESSING => Some DONE
       | _ => None
       end, [])
  | FullSTTFail _ _ _ =>
      (match from_state with
       | PROCESSING => Some ERROR
       | _ => None
       end, [])
  | QuitRequested | AudioLevelUpdated _ _ | OtherObject _ _ =>
      (None,
       [Log.warning ("Unknown event type: " ++ type_name (type_of event))])
  end.

(** [transition]: returns the result, the object after the call and the
    records written during the call. *)
Definition transition (self : t) (event : AppEvent)
  : option AppState * t * list Log.Entry :=
  let '(new_state, written) :=
    _calculate_transition (_current_state self) event in
  match new_state with
  | None =>
      (None, self,
       (written ++
        [Log.warning ("Invalid transition blocked: "
                      ++ AppState_str (_current_state self)
                      ++ " --" ++ type_name (type_of event)
                      ++ "--> (blocked)")])%list)
  | Some new_state =>
      let old_state := _current_state self in
      (Some new_state, mk new_state,
       (written ++
        [Log.info ("State transition: " ++ AppState_str old_state
                   ++ " --" ++ type_name (type_of event)
                   ++ "--> " ++ AppState_str new_state)])%list)
  end.

(** [get_allowed_transitions]: [state=None] means the current state. *)
Definition get_allowed_transitions (self : t) (state : option AppState)
  : list EventType :=
  let state := match state with None => _current_state self | Some s => s end in
  match state with
  | INIT => [TDoctorCompleted]
  | READY => [TKeyF9Pressed; TKeyF2Pressed; TQuitRequested]
  | RECORDING => [TKeyF9Pressed; TKeyF10Pressed; TQuitRequested]
  | PAUSED => [TKeyF9Pressed; TKeyF10Pressed; TQuitRequested]
  | PROCESSING => [TFullSTTDone; TFullSTTFail; TQuitRequested]
  | DONE => [TKeyF9Pressed; TKeyF8Pressed; TKeyF2Pressed; TQuitRequested]
  | ERROR => [TKeyF2Pressed; TQuitRequested]
  end.

(** Does [_calculate_transition] accept some event of this kind? *)
Definition accepts (s : AppState) (k : EventType) : Prop :=
  exists e, type_of e = k /\ fst (_calculate_transition s e) <> None.

(** The three components of a [transition] call. *)
Definition returned (r : option AppState * t * list Log.Entry) := fst (fst r).
Definition after (r : option AppState * t * list Log.Entry) := snd (fst r).
Definition logged (r : option AppState * t * list Log.Entry) := snd r.

(** Submitting a sequence of events to one machine. *)
Fixpoint run (self : t) (events : list AppEvent) : t :=
  match events with
  | [] => self
  | e :: rest => run (after (transition self e)) rest
  end.

End StateMachine.

(* ------------------------------------------------------------------ *)
(** ** The transition table of the specification

    The table as the specification prints it: rows of source states, an
    event pattern and a target.  It is kept apart from the code above and
    only compared with it. *)

Module SpecTable.

Inductive Pattern :=
| Kind (k : EventType)
| PreflightCompleted (success : bool).

Inductive Target :=
| To (s : AppState)
| Terminal.

Definition Row : Type := list AppState * Pattern * Target.

Definition rows : list Row :=
  [ ([READY], Kind TKeyF9Pressed, To RECORDING);
    ([RECORDING], Kind TKeyF9Pressed, To PAUSED);
    ([PAUSED], Kind TKeyF9Pressed, To RECORDING);
    ([DONE], Kind TKeyF9Pressed, To RECORDING);
    ([RECORDING], Kind TKeyF10Pressed, To PROCESSING);
    ([PAUSED], Kind TKeyF10Pressed, To PROCESSING);
    ([DONE], Kind TKeyF8Pressed, To PROCESSING);
    ([READY; DONE; ERROR], Kind TKeyF2Pressed, To INIT);
    ([INIT], PreflightCompleted true, To READY);
    ([INIT], PreflightCompleted false, To ERROR);
    ([PROCESSING], Kind TFullSTTDone, To DONE);
    ([PROCESSING], Kind TFullSTTFail, To ERROR);
    (all_states, Kind TQuitRequested, Terminal) ].

Definition matches (p : Pattern) (e : AppEvent) : bool :=
  match p with
  | Kind k => EventType_eqb k (type_of e)
  | PreflightCompleted b =>
      match e with
      | DoctorCompleted success _ _ => Bool.eqb b success
      | _ => false
      end
  end.

Definition lists (r : Row) (s : AppState) (e : AppEvent) : bool :=
  let '(froms, p, _) := r in
  existsb (AppState_eqb s) froms && matches p e.

Definition target (r : Row) : Target := snd r.

(** The first row that lists the pair, if any. *)
Definition lookup (s : AppState) (e : AppEvent) : option Target :=
  option_map target (find (fun r => lists r s e) rows).

(** The event kinds the table knows. *)
Definition known (k : EventType) : bool :=
  existsb (fun r : Row =>
             match snd (fst r) with
             | Kind k' => EventType_eqb k' k
             | PreflightCompleted _ => EventType_eqb TDoctorCompleted k
             end) rows.

End SpecTable.

(* ------------------------------------------------------------------ *)
(** ** [services/snippet_tracker_service.py]

    The service compares and adds Python floats.  The operations it uses
    are collected in a class, so that every statement below holds for the
    exact rationals as well as for IEEE binary64. *)

Module Binary64.
Import PrimFloat.
Definition zero : float := 0%float.
Definition tenth : float := 0x1.999999999999ap-4%float.
Definition eight : float := 8%float.
End Binary64.

Module SnippetTracker.

Class Seconds (T : Type) := {
  zero : T;               (* 0.0 *)
  add : T -> T -> T;      (* + *)
  geb : T -> T -> bool;   (* >= *)
  check_interval : T      (* 0.1 *)
}.

Section Service.

Context {T : Type} {S : Seconds T}.

(** The fields of the service that the lock guards, and the threshold. *)
Record t := mk {
  threshold_seconds : T;
  is_running : bool;
  is_paused : bool;
  cumulative_time : T;
  snippet_triggered : bool
}.

(** [__init__]. *)
Definition init (threshold : T) : t := mk threshold false false zero false.

(** [start]: no effect on a running tracker, otherwise a fresh episode. *)
Definition start (self : t) : t :=
  if is_running self then self
  else mk (threshold_seconds self) true false zero false.

Definition pause (self : t) : t :=
  if negb (is_running self) then self
  else if is_paused self then self
  else mk (threshold_seconds self) (is_running self) true
          (cumulative_time self) (snippet_triggered self).

Definition resume (self : t) : t :=
  if negb (is_running self) then self
  else if negb (is_paused self) then self
  else mk (threshold_seconds self) (is_running self) false
          (cumulative_time self) (snippet_triggered self).

(** [stop]: the first locked block clears [is_running]; the worker leaves
    its loop; the second locked block resets the rest. *)
Definition stop (self : t) : t :=
  if negb (is_running self) then self
  else
    let signalled := mk (threshold_seconds self) false (is_paused self)
                        (cumulative_time self) (snippet_triggered self) in
    mk (threshold_seconds signalled) (is_running signalled) false zero false.

(** One pass through the body of the loop of [_background_worker], after
    the sleep.  The flag tells whether [_transcribe_snippet] was called. *)
Definition worker_iteration (self : t) : t * bool :=
  if negb (is_running self) then (self, false)
  else if negb (is_paused self) && negb (snippet_triggered self) then
    let accumulated := add (cumulative_time self) check_interval in
    if geb accumulated (threshold_seconds self)
    then (mk (threshold_seconds self) (is_running self) (is_paused self)
             accumulated true, true)
    else (mk (threshold_seconds self) (is_running self) (is_paused self)
             accumulated (snippet_triggered self), false)
  else (self, false).

(** What can happen to a tracker: a call of one of its methods, or a tick
    of its worker.  Each runs under the lock. *)
Inductive Call := Start | Pause | Resume | Stop | Tick.

Definition step (self : t) (c : Call) : t * bool :=
  match c with
  | Start => (start self, false)
  | Pause => (pause self, false)
  | Resume => (resume self, false)
  | Stop => (stop self, false)
  | Tick => worker_iteration self
  end.

(** The tracker after each call of a sequence, and whether that call
    triggered the snippet. *)
Fixpoint trace (self : t) (cs : list Call) : list (t * bool) :=
  match cs with
  | [] => []
  | c :: rest => let r := step self c in r :: trace (fst r) rest
  end.

Definition final (self : t) (cs : list Call) : t :=
  fold_left (fun s c => fst (step s c)) cs self.

(** How often [_transcribe_snippet] was called during the sequence. *)
Definition fires (self : t) (cs : list Call) : nat :=
  List.length (filter snd (trace self cs)).

(** The calls that leave an episode open. *)
Definition keeps_episode (c : Call) : bool :=
  match c with Stop => false | _ => true end.

(** The calls that leave a paused tracker paused. *)
Definition keeps_paused (c : Call) : bool :=
  match c with Stop | Resume => false | _ => true end.

(** Has the accumulated time of this tracker reached its threshold? *)
Definition reached (self : t) : bool :=
  geb (cumulative_time self) (threshold_seconds self).

(** Inside an episode the tracker runs, and its flag tells whether the
    accumulated time has reached the threshold. *)
Definition in_episode (s : t) : Prop :=
  is_running s = true /\ snippet_triggered s = reached s.

(** Marks the first tracker of a list whose accumulated time has reached
    the threshold; [seen] tells that an earlier one already had. *)
Fixpoint first_reached (seen : bool) (l : list t) : list bool :=
  match l with
  | [] => []
  | s :: rest =>
      (reached s && negb seen) :: first_reached (seen || reached s) rest
  end.

End Service.

Arguments t T : clear implicits.

(** Exact arithmetic. *)
#[export] Instance Seconds_Q : Seconds Q := {
  zero := 0%Q;
  add := Qplus;
  geb := fun a b => Qle_bool b a;
  check_interval := (1 # 10)%Q
}.

(** Python's floats: IEEE binary64, with the double nearest to 0.1. *)
#[export] Instance Seconds_float : Seconds PrimFloat.float := {
  zero := Binary64.zero;
  add := PrimFloat.add;
  geb := fun a b => PrimFloat.leb b a;
  check_interval := Binary64.tenth
}.

End SnippetTracker.

(* ------------------------------------------------------------------ *)
(** ** [services/snippet_tracker_service.py]: the blocks under the lock

    [stop] takes the lock twice and waits for the worker in between, so
    other threads can run between its two blocks.  Here every block that
    runs under the lock is a step of its own, and a run is any
    interleaving of them; [stopping] counts the calls of [stop] that are
    between their two blocks. *)

Module TrackerLocks.

Import SnippetTracker.

Section Blocks.

Context {T : Type} {S : Seconds T}.

Inductive Block :=
| BStart        (* the block of start() *)
| BPause        (* the block of pause() *)
| BResume       (* the block of resume() *)
| BStopFirst    (* the first block of stop() *)
| BStopSecond   (* the second block of stop(), after the join *)
| BTick.        (* the block in the loop of a worker *)

Record Shared := World {
  tracker : t T;
  stopping : nat
}.

(** The first block of [stop]: on a running tracker it clears
    [is_running] and the call goes on to the join and the second block;
    otherwise the call returns. *)
Definition stop_first (self : t T) : t T * bool :=
  if negb (is_running self) then (self, false)
  else (mk (threshold_seconds self) false (is_paused self)
           (cumulative_time self) (snippet_triggered self), true).

(** The second block of [stop]. *)
Definition stop_second (self : t T) : t T :=
  mk (threshold_seconds self) (is_running self) false zero false.

Definition run_block (w : Shared) (b : Block) : Shared :=
  match b with
  | BStart => World (start (tracker w)) (stopping w)
  | BPause => World (pause (tracker w)) (stopping w)
  | BResume => World (resume (tracker w)) (stopping w)
  | BStopFirst =>
      let '(self, goes_on) := stop_first (tracker w) in
      World self (if goes_on then Datatypes.S (stopping w) else stopping w)
  | BStopSecond =>
      match stopping w with
      | O => w   (* no call of stop is waiting for its second block *)
      | Datatypes.S waiting => World (stop_second (tracker w)) waiting
      end
  | BTick => World (fst (worker_iteration (tracker w))) (stopping w)
  end.

Definition run_blocks (w : Shared) (blocks : list Block) : Shared :=
  fold_left run_block blocks w.

(** A new service, with no call of [stop] under way. *)
Definition fresh (threshold : T) : Shared := World (init threshold) 0.

End Blocks.

Arguments Shared T : clear implicits.

End TrackerLocks.

(* ------------------------------------------------------------------ *)
(** ** [services/stt_service.py]

    The inference engine is an oracle: a loaded model answers a call of
    [transcribe] with the text and quality label the service derives from
    the segments, or raises.  A function that may call the model returns
    the list of calls it made next to its result. *)

Module STT.

Definition Audio : Type := option (list Q).

Inductive Answer :=
| Transcribed (transcript quality : string)
| Raises (exception_type exception_text : string).

Record Model := { transcribe : list Q -> Answer }.

(** The part of the service object that the transcription paths read. *)
Record t := mk { model : option Model; _is_ready : bool }.

Definition is_ready (self : t) : bool := _is_ready self.

Record SnippetTranscriptionResult := SnippetResult {
  s_success : bool;
  s_transcript : option string;
  s_quality : option string;
  s_error_hint : option string
}.

Record FullTranscriptionResult := FullResult {
  success : bool;
  transcript : option string;
  error_code : option string;
  error_hint : option string;
  job_id : string
}.

(** A result together with the audio handed to [model.transcribe]. *)
Definition Ran (R : Type) : Type := R * list (list Q).

(** [not self._is_ready or self.model is None]. *)
Definition not_ready (self : t) : bool :=
  negb (_is_ready self) || match model self with None => true | Some _ => false end.

Definition _transcribe_full_internal (self : t) (audio_data : Audio)
  (job_id : string) : Ran FullTranscriptionResult :=
  if not_ready self then
    (FullResult false None (Some "STT_NOT_READY")
                (Some "STT nicht bereit") job_id, [])
  else
    match audio_data with
    | Some ((_ :: _) as samples) =>
        match model self with
        | Some m =>
            match transcribe m samples with
            | Transcribed text _ =>
                (FullResult true (Some text) None None job_id, [samples])
            | Raises ty msg =>
                (FullResult false None (Some ty) (Some msg) job_id, [samples])
            end
        | None =>
            (* [self.model.transcribe] on [None], caught by the handler *)
            (FullResult false None (Some "AttributeError")
                        (Some "'NoneType' object has no attribute 'transcribe'")
                        job_id, [])
        end
    | _ =>
        (FullResult false None (Some "AUDIO_INVALID")
                    (Some "Audio-Daten ungueltig") job_id, [])
    end.

Definition _transcribe_snippet_internal (self : t) (audio_data : Audio)
  : Ran SnippetTranscriptionResult :=
  if not_ready self then
    (SnippetResult false None None (Some "STT nicht bereit"), [])
  else
    match audio_data with
    | Some ((_ :: _) as samples) =>
        match model self with
        | Some m =>
            match transcribe m samples with
            | Transcribed text quality =>
                (SnippetResult true (Some text) (Some quality) None, [samples])
            | Raises ty _ =>
                (SnippetResult false None None (Some ("STT-Fehler: " ++ ty)),
                 [samples])
            end
        | None =>
            (SnippetResult false None None (Some "STT-Fehler: AttributeError"),
             [])
        end
    | _ =>
        (SnippetResult false None None (Some "Audio-Daten ungueltig"), [])
    end.

(** A started thread: its name and its target.  The target reads the
    service object when the thread runs, not when it was created; it
    yields the argument of the one callback call it makes, and the model
    calls made on the way. *)
Record Thread (R : Type) := Spawn {
  name : string;
  target : t -> Ran R
}.
Arguments Spawn {R}.
Arguments name {R}.
Arguments target {R}.

(** [transcribe_snippet]: starts the worker and returns; the readiness
    test is the one of [_transcribe_snippet_internal], in the worker. *)
Definition transcribe_snippet (self : t) (audio_data : Audio)
  : Thread SnippetTranscriptionResult :=
  Spawn "SnippetSTTWorker"
        (fun running => _transcribe_snippet_internal running audio_data).

(** [transcribe_full]: the readiness test comes before the worker is
    started; a request that fails it gets a thread that only calls the
    callback with the failure built by the caller. *)
Definition transcribe_full (self : t) (audio_data : Audio) (job_id : string)
  : Thread FullTranscriptionResult :=
  if not_ready self then
    let fail := FullResult false None (Some "STT_NOT_READY")
                           (Some "STT nicht bereit") job_id in
    Spawn "FullSTTWorker" (fun _ => (fail, []))
  else
    Spawn "FullSTTWorker"
          (fun running => _transcribe_full_internal running audio_data job_id).

(** An engine that answers every call with the same text. *)
Definition echo : Model :=
  {| transcribe := fun _ => Transcribed "guten Tag" "Gut" |}.

(** The service object once [_load_and_warmup] has succeeded. *)
Definition loaded (m : Model) : t := mk (Some m) true.

End STT.

(* ------------------------------------------------------------------ *)
(** ** [services/recording_service.py]

    Samples are only stored, joined and sliced, never computed with; the
    number of seconds is taken as an exact rational. *)

Module Recording.

Definition Sample : Type := Q.

Record t := mk {
  _chunks : list (list Sample);
  _samplerate : Z
}.

(** The lock-protected append of [_callback]. *)
Definition _callback (self : t) (indata : list Sample) : t :=
  mk (_chunks self ++ [indata])%list (_samplerate self).

(** [int(x)] for a number: truncation towards zero. *)
Definition py_int (x : Q) : Z := Z.quot (Qnum x) (Zpos (Qden x)).

(** [buf[start:]] with Python's rule for a negative start. *)
Definition slice_from {A} (start : Z) (buf : list A) : list A :=
  let len := Z.of_nat (List.length buf) in
  let lo := if (start <? 0)%Z then Z.max 0 (start + len) else Z.min start len in
  skipn (Z.to_nat lo) buf.

(** [int(seconds * self._samplerate)]: the number of samples asked for. *)
Definition requested (self : t) (seconds : Q) : Z :=
  py_int (seconds * inject_Z (_samplerate self)).

(** [get_snippet]: the array returned, and the service after the call. *)
Definition get_snippet (self : t) (seconds : Q) : list Sample * t :=
  match _chunks self with
  | [] => ([], self)
  | _ =>
      let buf := List.concat (_chunks self) in
      let n := requested self seconds in
      if (Z.of_nat (List.length buf) <=? n)%Z then (buf, self)
      else (slice_from (- n) buf, self)
  end.

Definition get_full (self : t) : list Sample * t :=
  match _chunks self with
  | [] => ([], self)
  | _ => (List.concat (_chunks self), self)
  end.

(** The last [k] elements of a list, all of it if it is shorter. *)
Definition last_n {A} (k : nat) (l : list A) : list A :=
  skipn (List.length l - k) l.

End Recording.

(* ------------------------------------------------------------------ *)
(** ** The audit entries of the specification

    What an entry may depend on: the old state, the kind of the event and
    the outcome.  Kept apart from [StateMachine.transition] and compared
    with it below. *)

Module Audit.

(** The kinds [_calculate_transition] has a branch for. *)
Definition handled (k : EventType) : bool :=
  match k with
  | TKeyF9Pressed | TKeyF10Pressed | TKeyF8Pressed | TKeyF2Pressed
  | TDoctorCompleted | TFullSTTDone | TFullSTTFail => true
  | TQuitRequested | TAudioLevelUpdated | TOther _ => false
  end.

Definition entries (old_state : AppState) (kind : EventType)
  (outcome : option AppState) : list Log.Entry :=
  ((if handled kind then []
    else [Log.warning ("Unknown event type: " ++ type_name kind)])
   ++
   [match outcome with
    | None =>
        Log.warning ("Invalid transition blocked: " ++ AppState_str old_state
                     ++ " --" ++ type_name kind ++ "--> (blocked)")
    | Some new_state =>
        Log.info ("State transition: " ++ AppState_str old_state
                  ++ " --" ++ type_name kind ++ "--> "
                  ++ AppState_str new_state)
    end])%list.

End Audit.

(* ------------------------------------------------------------------ *)
(** ** [services/audio_capture.py]

    The sound library and the devices of the machine are oracles: whether
    the library can be imported, what [query_devices] answers, and what
    opening a test stream on a device does.  [str.lower] and [str.strip]
    are taken from the host as well.  [check_microphone] returns its
    result together with the devices on which a stream was opened, in
    order. *)

Module AudioCapture.

(** An entry of [sd.query_devices()]. *)
Record Device := {
  is_dict : bool;
  name : option string;                (* d.get('name') *)
  max_input_channels : option Z        (* d.get('max_input_channels') *)
}.

(** What opening the test stream does. *)
Inductive StreamTest :=
| Opened
| PortAudioError (text : string)
| PermissionError (text : string)
| OSError (text : string)
| OtherError (exception_type text : string).

Inductive Query :=
| QueryRaises (exception_type : string)
| Devices (devices : list Device).

Record Host := {
  sounddevice_installed : bool;
  query_devices : Query;
  open_stream : option nat -> StreamTest;   (* None: the default device *)
  lower : string -> string;
  strip : string -> string
}.

(** Truth value of a string. *)
Definition truthy (s : string) : bool := negb (String.eqb s "").

(** [needle in hay]. *)
Fixpoint contains (needle hay : string) : bool :=
  String.prefix needle hay ||
  match hay with
  | EmptyString => false
  | String _ rest => contains needle rest
  end.

Definition name_or (default : string) (d : Device) : string :=
  match name d with Some n => n | None => default end.

Definition channels (d : Device) : Z :=
  match max_input_channels d with Some c => c | None => 0%Z end.

(** [isinstance(d, dict) and d.get('max_input_channels', 0) > 0]. *)
Definition is_input (d : Device) : bool := is_dict d && (0 <? channels d)%Z.

Definition enumerate {A} (l : list A) : list (nat * A) :=
  combine (seq 0 (List.length l)) l.

Definition input_devices (devices : list Device) : list (nat * Device) :=
  filter (fun p => is_input (snd p)) (enumerate devices).

Definition _test_device_stream (h : Host) (device : option nat)
  : bool * option string :=
  match open_stream h device with
  | Opened => (true, None)
  | PortAudioError text => (false, Some text)
  | PermissionError _ =>
      (false, Some "Microphone access denied (check privacy settings)")
  | OSError text => (false, Some text)
  | OtherError ty text => (false, Some (ty ++ ": " ++ text))
  end.

(** Does a test stream open on this device? *)
Definition works (h : Host) (device : option nat) : bool :=
  match open_stream h device with Opened => true | _ => false end.

(** An entry of [devices_to_test], without the description. *)
Definition Candidate : Type := option nat * option Device.

(** Step 1: the first input device whose name contains the preference. *)
Definition preferred (h : Host) (device_preference : string)
  (inputs : list (nat * Device)) : list Candidate :=
  if truthy device_preference then
    match find (fun p => contains (lower h device_preference)
                                  (lower h (name_or "" (snd p)))) inputs with
    | Some (idx, device) => [(Some idx, Some device)]
    | None => []
    end
  else [].

(** Is this index already in the list of candidates? *)
Definition listed (idx : nat) (tests : list Candidate) : bool :=
  existsb (fun c => match fst c with
                    | Some test_idx => Nat.eqb test_idx idx
                    | None => false
                    end) tests.

(** Steps 1 to 3: the preference, the default device, every input device
    not yet in the list. *)
Definition devices_to_test (h : Host) (device_preference : string)
  (inputs : list (nat * Device)) : list Candidate :=
  fold_left
    (fun tests p =>
       if listed (fst p) tests then tests
       else (tests ++ [(Some (fst p), Some (snd p))])%list)
    inputs
    (preferred h device_preference inputs ++ [(None, None)])%list.

(** The test loop: the result and the devices tested. *)
Fixpoint test_devices (h : Host) (tests : list Candidate)
  (last_error : option string)
  : (bool * option string * option string) * list (option nat) :=
  match tests with
  | [] =>
      let error_hint :=
        match last_error with
        | Some e => if truthy e then e
                    else "No working microphone device found"
        | None => "No working microphone device found"
        end in
      ((false, Some error_hint, None), [])
  | (device_id, device_info) :: rest =>
      match _test_device_stream h device_id with
      | (true, _) =>
          let device_identifier :=
            match device_id, device_info with
            | Some _, Some d => name_or "" d
            | _, _ => ""
            end in
          ((true, None, Some device_identifier), [device_id])
      | (false, error) =>
          let '(result, tested) := test_devices h rest error in
          (result, device_id :: tested)
      end
  end.

Definition check_microphone (h : Host) (device_preference : string)
  : (bool * option string * option string) * list (option nat) :=
  if negb (sounddevice_installed h) then
    ((false, Some "sounddevice not installed", None), [])
  else
    match query_devices h with
    | QueryRaises ty =>
        ((false, Some ("Cannot query audio devices: " ++ ty), None), [])
    | Devices [] => ((false, Some "No audio devices found", None), [])
    | Devices devices =>
        match input_devices devices with
        | [] =>
            ((false, Some "No input devices (microphones) found", None), [])
        | inputs =>
            test_devices h (devices_to_test h device_preference inputs) None
        end
    end.

(** [get_device_index]: the device the recording stream is opened on. *)
Definition get_device_index (h : Host) (config_device : string) : option nat :=
  if negb (truthy config_device) || negb (truthy (strip h config_device))
  then None
  else if negb (sounddevice_installed h) then None
  else
    match query_devices h with
    | QueryRaises _ => None
    | Devices devices =>
        let needle := lower h (strip h config_device) in
        option_map fst
          (find (fun p => is_input (snd p) &&
                          contains needle (lower h (name_or "" (snd p))))
                (enumerate devices))
    end.

(** A machine with an output device and two microphones, of which the
    default device and the first microphone are busy. *)
Definition studio : Host :=
  {| sounddevice_installed := true;
     query_devices :=
       Devices [ {| is_dict := true; name := Some "Speakers";
                    max_input_channels := Some 0%Z |};
                 {| is_dict := true; name := Some "Webcam Mic";
                    max_input_channels := Some 1%Z |};
                 {| is_dict := true; name := Some "USB Headset";
                    max_input_channels := Some 2%Z |} ];
     open_stream := fun d =>
       match d with
       | Some 2%nat => Opened
       | Some _ => PortAudioError "Device unavailable"
       | None => OSError ""
       end;
     lower := fun s => s;
     strip := fun s => s |}.

(** The same machine with every device busy; the errors have no text. *)
Definition muted : Host :=
  {| sounddevice_installed := true;
     query_devices := query_devices studio;
     open_stream := fun _ => PortAudioError "";
     lower := fun s => s;
     strip := fun s => s |}.

End AudioCapture.

(* ------------------------------------------------------------------ *)
(** ** [services/stt_service.py]: loading the model

    What [WhisperModel(...)] does is an oracle; the warmup is a call of the
    model it returned, on one second of silence. *)

Module STTLoad.

Inductive Whisper :=
| ImportFails
| ConstructorRaises (exception_type : string)
| Constructed (m : STT.Model).

Record STTServiceResult := Result {
  success : bool;
  error_hint : option string
}.

(** The service object [__init__] leaves. *)
Definition fresh : STT.t := STT.mk None false.

(** [np.zeros(16000)]. *)
Definition silence : list Q := repeat 0%Q (Z.to_nat 16000).

(** [_load_and_warmup]: the result, the service object afterwards and the
    audio handed to the model. *)
Definition _load_and_warmup (w : Whisper) (self : STT.t)
  : STTServiceResult * STT.t * list (list Q) :=
  match w with
  | ImportFails =>
      (Result false (Some "faster-whisper not installed"), self, [])
  | ConstructorRaises ty =>
      (Result false (Some ("Cannot load STT model: " ++ ty)), self, [])
  | Constructed m =>
      let self := STT.mk (Some m) (STT._is_ready self) in
      match STT.transcribe m silence with
      | STT.Transcribed _ _ =>
          (Result true None, STT.mk (STT.model self) true, [silence])
      | STT.Raises ty _ =>
          (Result false (Some ("Cannot load STT model: " ++ ty)), self,
           [silence])
      end
  end.

End STTLoad.

(* ------------------------------------------------------------------ *)
(** ** [services/snippet_tracker_service.py]: the snippet itself

    [_transcribe_snippet] either reports a failure to the snippet callback
    at once, or hands audio to the speech-to-text service; the result of
    that service reaches the callback through [handle_stt_result]. *)

Module TrackerSnippet.

(** What [get_audio_for_snippet] is and does. *)
Inductive AudioGetter :=
| NoGetter
| GetterRaises
| GetterReturns (raw : option (list Q)).

(** The arguments of one call of [snippet_callback]. *)
Record Message := Msg {
  transcript : option string;
  quality : option string;
  thread_id : Z;
  error_hint : option string
}.

Inductive Action :=
| Report (m : Message)
| Dispatch (audio_data : list Q) (uses_fake : bool)
| GeneratorRaises.

Definition error_quality : string := "🔴 Qualität: Fehler".

(** [_generate_fake_audio]: the noise is drawn by [fake_audio]; for a
    negative length [np.random.normal] raises ValueError. *)
Definition _generate_fake_audio (fake_audio : Z -> list Q) (length : Z)
  : option (list Q) :=
  if (length <? 0)%Z then None else Some (fake_audio length).

Definition _transcribe_snippet (stt_service : option STT.t)
  (threshold_seconds : Q) (get_audio_for_snippet : AudioGetter)
  (fake_audio : Z -> list Q) (background_thread_id : Z) : Action :=
  let unavailable :=
    match stt_service with
    | None => true
    | Some service => negb (STT.is_ready service)
    end in
  if unavailable then
    Report (Msg (Some "") (Some error_quality) background_thread_id
                (Some "STT nicht bereit"))
  else
    let raw :=
      match get_audio_for_snippet with
      | NoGetter => None
      | GetterRaises => None
      | GetterReturns raw => raw
      end in
    match raw with
    | Some ((_ :: _) as samples) => Dispatch samples false
    | _ =>
        let audio_length :=
          Recording.py_int (threshold_seconds * inject_Z 16000) in
        match _generate_fake_audio fake_audio audio_length with
        | Some audio_data => Dispatch audio_data true
        | None => GeneratorRaises
        end
    end.

Definition handle_stt_result (background_thread_id : Z)
  (result : STT.SnippetTranscriptionResult) : Message :=
  if STT.s_success result then
    Msg (STT.s_transcript result) (STT.s_quality result)
        background_thread_id None
  else
    Msg (Some "") (Some error_quality) background_thread_id
        (STT.s_error_hint result).

(** One trigger from the tracker to the callback: [service] is the
    speech-to-text service, [at_worker] the same object when the
    transcription worker runs.  Yields the calls of [snippet_callback], in
    order, and the audio handed to the model.  When the generator raises,
    the exception ends the worker of the tracker and nothing is called. *)
Definition snippet_round (service : option STT.t) (at_worker : STT.t)
  (threshold_seconds : Q) (get_audio_for_snippet : AudioGetter)
  (fake_audio : Z -> list Q) (background_thread_id : Z)
  : list Message * list (list Q) :=
  match _transcribe_snippet service threshold_seconds get_audio_for_snippet
                            fake_audio background_thread_id with
  | Report m => ([m], [])
  | Dispatch audio_data _ =>
      match service with
      | Some s =>
          let r := STT.target (STT.transcribe_snippet s (Some audio_data))
                              at_worker in
          ([handle_stt_result background_thread_id (fst r)], snd r)
      | None => ([], [])
      end
  | GeneratorRaises => ([], [])
  end.

(** The trigger at which the generator raises: the service is ready, the
    recorder hands over nothing, and the threshold gives a negative
    number of samples. *)
Definition generator_raises (service : option STT.t)
  (threshold_seconds : Q) (get_audio_for_snippet : AudioGetter) : bool :=
  match service with
  | Some s =>
      STT.is_ready s &&
      match get_audio_for_snippet with
      | GetterReturns (Some (_ :: _)) => false
      | _ => true
      end &&
      (Recording.py_int (threshold_seconds * inject_Z 16000) <? 0)%Z
  | None => false
  end.

End TrackerSnippet.

(* ------------------------------------------------------------------ *)
(** ** The two groups of [domain/events.py]

    The module lists the key events under "UI Events (triggered by user
    input)" and the rest under "Service Events". *)

Definition from_user (e : AppEvent) : bool :=
  match e with
  | KeyF9Pressed | KeyF10Pressed | KeyF8Pressed | KeyF2Pressed
  | QuitRequested => true
  | _ => false
  end.

(* ------------------------------------------------------------------ *)
(** ** The model calls a transcription request is entitled to

    The request's audio, once, if the service is ready and the audio is
    not empty; compared below with what the two paths of
    [services/stt_service.py] do. *)

Definition model_calls_for (self : STT.t) (audio_data : STT.Audio)
  : list (list Q) :=
  match audio_data with
  | Some ((_ :: _) as samples) => if STT.not_ready self then [] else [samples]
  | _ => []
  end.

(* ------------------------------------------------------------------ *)
(** ** [util/config_loader.py] and [util/config_writer.py]

    The TOML libraries are outside: the file is taken as the document it
    holds, a table of TOML values, or as missing or not parsable, and what
    [tomli_w.dump] writes is the document again.  Of Python, parsing an
    integer from a string, [str] of a value that is not a string and
    [str.strip] are oracles.  A call ends in a returned value, in
    [sys.exit(1)] after a message, or in an exception that nothing
    catches. *)

Module Config.

Inductive FloatValue := Finite (q : Q) | Infinite | NotANumber.

#[warnings="-register-all"]
Inductive Value :=
| VStr (s : string)
| VInt (z : Z)
| VBool (b : bool)
| VFloat (f : FloatValue)
| VDate (text : string)
| VArray (items : list Value)
| VTable (entries : list (string * Value)).

Definition Table : Type := list (string * Value).

(** [d.get(key)]. *)
Fixpoint lookup (key : string) (d : Table) : option Value :=
  match d with
  | [] => None
  | (k, v) :: rest => if String.eqb k key then Some v else lookup key rest
  end.

(** [d[key] = v]: in place for a key of the dict, at the end otherwise. *)
Fixpoint assign (key : string) (v : Value) (d : Table) : Table :=
  match d with
  | [] => [(key, v)]
  | (k, x) :: rest =>
      if String.eqb k key then (k, v) :: rest
      else (k, x) :: assign key v rest
  end.

Inductive File :=
| Missing
| Unparsable
| Document (d : Table).

Record Python := {
  parse_int : string -> option Z;     (* int(s), None for ValueError *)
  py_str : Value -> string;           (* str(v) *)
  py_strip : string -> string         (* s.strip() *)
}.

(** The messages before [sys.exit(1)], by what they report. *)
Inductive Reason :=
| NotFound
| ParseFailed
| MissingSection (section : string)
| MissingKey (section key : string)
| Invalid (section : string).

Inductive Outcome (A : Type) :=
| Returns (a : A)
| Exits (reason : Reason)
| Raises (exception_type : string).
Arguments Returns {A}.
Arguments Exits {A}.
Arguments Raises {A}.

Definition bind {A B} (m : Outcome A) (k : A -> Outcome B) : Outcome B :=
  match m with
  | Returns a => k a
  | Exits r => Exits r
  | Raises e => Raises e
  end.

(** Inside a [try] that catches ValueError and TypeError. *)
Inductive Tried (A : Type) :=
| Fine (a : A)
| Caught
| Escapes (exception_type : string).
Arguments Fine {A}.
Arguments Caught {A}.
Arguments Escapes {A}.

Definition and_then {A B} (m : Tried A) (k : A -> Tried B) : Tried B :=
  match m with
  | Fine a => k a
  | Caught => Caught
  | Escapes e => Escapes e
  end.

Definition or_exit {A} (section : string) (m : Tried A) : Outcome A :=
  match m with
  | Fine a => Returns a
  | Caught => Exits (Invalid section)
  | Escapes e => Raises e
  end.

(** [key in data]; [None] is the TypeError of a value that is not
    iterable. *)
Definition member (key : string) (data : Value) : option bool :=
  match data with
  | VTable entries =>
      Some (match lookup key entries with Some _ => true | None => false end)
  | VStr s => Some (AudioCapture.contains key s)
  | VArray items =>
      Some (existsb (fun item => match item with
                                 | VStr s => String.eqb s key
                                 | _ => false
                                 end) items)
  | VInt _ | VBool _ | VFloat _ | VDate _ => None
  end.

(** [data[key]] inside the [try]. *)
Definition index (data : Value) (key : string) : Tried Value :=
  match data with
  | VTable entries =>
      match lookup key entries with
      | Some v => Fine v
      | None => Escapes "KeyError"
      end
  | _ => Caught
  end.

(** [str(v)]. *)
Definition to_str (py : Python) (v : Value) : string :=
  match v with
  | VStr s => s
  | _ => py_str py v
  end.

(** [int(v)]. *)
Definition to_int (py : Python) (v : Value) : Tried Z :=
  match v with
  | VInt z => Fine z
  | VBool b => Fine (if b then 1 else 0)%Z
  | VFloat (Finite q) => Fine (Recording.py_int q)
  | VFloat Infinite => Escapes "OverflowError"
  | VFloat NotANumber => Caught
  | VStr s => match parse_int py s with Some z => Fine z | None => Caught end
  | VDate _ | VArray _ | VTable _ => Caught
  end.

Definition str_field (py : Python) (data : Value) (key : string)
  : Tried string :=
  and_then (index data key) (fun v => Fine (to_str py v)).

Definition int_field (py : Python) (data : Value) (key : string) : Tried Z :=
  and_then (index data key) (to_int py).

Record AudioConfig := Audio {
  device : string; samplerate : Z; channels : Z
}.
Record SnippetConfig := Snippet { seconds : Z }.
Record STTConfig := Stt {
  model : string; compute_type : string; beam_size : Z; language : string;
  initial_prompt : option string
}.
Record RetentionConfig := Retention { recordings_days : Z; logs_days : Z }.
Record AppConfig := App {
  audio : AudioConfig;
  snippet : SnippetConfig;
  stt : STTConfig;
  retention : RetentionConfig
}.

Definition required_sections : list string :=
  ["audio"; "snippet"; "stt"; "retention"].

Fixpoint require_sections (sections : list string) (d : Table)
  : Outcome unit :=
  match sections with
  | [] => Returns tt
  | section :: rest =>
      match lookup section d with
      | None => Exits (MissingSection section)
      | Some _ => require_sections rest d
      end
  end.

Fixpoint require_keys (section : string) (keys : list string) (data : Value)
  : Outcome unit :=
  match keys with
  | [] => Returns tt
  | key :: rest =>
      match member key data with
      | None => Raises "TypeError"
      | Some false => Exits (MissingKey section key)
      | Some true => require_keys section rest data
      end
  end.

(** [config_data[section]] after the check of the sections. *)
Definition section_of (d : Table) (section : string) : Outcome Value :=
  match lookup section d with
  | Some v => Returns v
  | None => Raises "KeyError"
  end.

(** [stt_data.get("initial_prompt")] and what follows it. *)
Definition read_initial_prompt (py : Python) (stt_data : Value)
  : Outcome (option string) :=
  match stt_data with
  | VTable entries =>
      match lookup "initial_prompt" entries with
      | None => Returns None
      | Some raw =>
          let s := py_strip py (to_str py raw) in
          Returns (if AudioCapture.truthy s then Some s else None)
      end
  | _ => Raises "AttributeError"
  end.

(** The four parts of [load_config] after the check of the sections, each
    with its loop over the required keys and its [try]. *)
Definition load_audio (py : Python) (config_data : Table)
  : Outcome AudioConfig :=
  bind (section_of config_data "audio") (fun audio_data =>
  bind (require_keys "audio" ["device"; "samplerate"; "channels"] audio_data)
       (fun _ =>
  or_exit "audio"
    (and_then (str_field py audio_data "device") (fun dev =>
     and_then (int_field py audio_data "samplerate") (fun rate =>
     and_then (int_field py audio_data "channels") (fun ch =>
     Fine (Audio dev rate ch))))))).

Definition load_snippet (py : Python) (config_data : Table)
  : Outcome SnippetConfig :=
  bind (section_of config_data "snippet") (fun snippet_data =>
  bind (require_keys "snippet" ["seconds"] snippet_data) (fun _ =>
  or_exit "snippet"
    (and_then (int_field py snippet_data "seconds") (fun s =>
     Fine (Snippet s))))).

Definition load_stt (py : Python) (config_data : Table) : Outcome STTConfig :=
  bind (section_of config_data "stt") (fun stt_data =>
  bind (require_keys "stt" ["model"; "compute_type"; "beam_size"; "language"]
                     stt_data) (fun _ =>
  bind (read_initial_prompt py stt_data) (fun prompt =>
  or_exit "stt"
    (and_then (str_field py stt_data "model") (fun m =>
     and_then (str_field py stt_data "compute_type") (fun ct =>
     and_then (int_field py stt_data "beam_size") (fun bs =>
     and_then (str_field py stt_data "language") (fun lang =>
     Fine (Stt m ct bs lang prompt))))))))).

Definition load_retention (py : Python) (config_data : Table)
  : Outcome RetentionConfig :=
  bind (section_of config_data "retention") (fun retention_data =>
  bind (require_keys "retention" ["recordings_days"; "logs_days"]
                     retention_data) (fun _ =>
  or_exit "retention"
    (and_then (int_field py retention_data "recordings_days") (fun rd =>
     and_then (int_field py retention_data "logs_days") (fun ld =>
     Fine (Retention rd ld)))))).

Definition load_document (py : Python) (config_data : Table)
  : Outcome AppConfig :=
  bind (require_sections required_sections config_data) (fun _ =>
  bind (load_audio py config_data) (fun audio =>
  bind (load_snippet py config_data) (fun snippet =>
  bind (load_stt py config_data) (fun stt =>
  bind (load_retention py config_data) (fun retention =>
  Returns (App audio snippet stt retention)))))).

(** The section is a table of the document and holds each of the keys. *)
Definition has_keys (d : Table) (section : string) (keys : list string)
  : Prop :=
  exists entries,
    lookup section d = Some (VTable entries) /\
    Forall (fun key => exists v, lookup key entries = Some v) keys.

(** The keys [load_config] asks for, by section. *)
Definition required_keys : list (string * list string) :=
  [ ("audio", ["device"; "samplerate"; "channels"]);
    ("snippet", ["seconds"]);
    ("stt", ["model"; "compute_type"; "beam_size"; "language"]);
    ("retention", ["recordings_days"; "logs_days"]) ].

Definition load_config (py : Python) (file : File) : Outcome AppConfig :=
  match file with
  | Missing => Exits NotFound
  | Unparsable => Exits ParseFailed
  | Document config_data => load_document py config_data
  end.

(** What writing the file does: the write completes; or the file cannot
    be opened for writing and stays as it is; or it is opened, which
    empties it, and the write fails on the way, leaving [remains].  Of a
    failure the class name of the OSError is given, or [None] for an
    exception of another class. *)
Inductive Write :=
| Written
| OpenFails (os_error : string)
| WriteFails (remains : File) (os_error : option string).

(** [update_audio_device]: how the call ends and the file afterwards. *)
Definition update_audio_device (file : File) (write : Write)
  (new_device : string) : Outcome unit * File :=
  match file with
  | Missing => (Raises "FileNotFoundError", file)
  | Unparsable => (Raises "OSError", file)
  | Document config_data =>
      let config_data :=
        match lookup "audio" config_data with
        | None => assign "audio" (VTable []) config_data
        | Some _ => config_data
        end in
      match lookup "audio" config_data with
      | Some (VTable audio_data) =>
          let config_data :=
            assign "audio"
                   (VTable (assign "device" (VStr new_device) audio_data))
                   config_data in
          match write with
          | Written => (Returns tt, Document config_data)
          | OpenFails os_error => (Raises os_error, file)
          | WriteFails remains (Some os_error) => (Raises os_error, remains)
          | WriteFails remains None => (Raises "OSError", remains)
          end
      | _ => (Raises "OSError", file)
      end
  end.

(** A stand-in for the interpreter, enough for the sample below. *)
Definition sample_python : Python :=
  {| parse_int := fun s => if String.eqb s "5" then Some 5%Z else None;
     py_str := fun _ => "";
     py_strip := fun s => s |}.

(** A configuration file with every section. *)
Definition sample_document : Table :=
  [ ("audio", VTable [ ("device", VStr "");
                       ("samplerate", VInt 16000);
                       ("channels", VInt 1) ]);
    ("snippet", VTable [ ("seconds", VInt 8) ]);
    ("stt", VTable [ ("model", VStr "small");
                     ("compute_type", VStr "int8");
                     ("beam_size", VStr "5");
                     ("language", VStr "de") ]);
    ("retention", VTable [ ("recordings_days", VInt 30);
                           ("logs_days", VFloat (Finite (7 # 1))) ]) ].

End Config.

(* ------------------------------------------------------------------ *)
(** ** [services/doctor_service.py]

    What the checks find on the machine is an environment of oracles: the
    directories, the manifest, the speech-to-text library, the
    configuration file and the sound devices.  The model and microphone
    checks call [load_config]; when that ends in [sys.exit(1)], the
    SystemExit passes every [except Exception] of the service, so a check
    either returns or exits.  The sequence of checks runs in a writer
    monad that records which check methods were called, in call order. *)

Module Doctor.

Record DoctorCheckResult := Result {
  success : bool;
  error_code : option string;
  error_hint : option string;
  mic_ok : bool;
  model_ok : bool
}.

(** What [WhisperModel(model_name, ...)] does. *)
Inductive ModelLoad :=
| Loaded
| LoadImportError                       (* an ImportError from inside *)
| LoadRaises (exception_type : string). (* an Exception of another class *)

Record Env := {
  data_dir_usable : bool;              (* data_dir.mkdir succeeds *)
  subdir_usable : string -> bool;      (* dir_path.mkdir succeeds *)
  subdir_writable : string -> bool;    (* write_text and unlink succeed *)
  requirements_lock_exists : bool;     (* req_file.exists() *)
  faster_whisper_installed : bool;     (* from faster_whisper import ... *)
  whisper : string -> ModelLoad;
  python : Config.Python;
  config_file : Config.File;           (* config.toml *)
  config_write : Config.Write;         (* what writing config.toml does *)
  host : AudioCapture.Host
}.

Inductive Check :=
| check_paths | check_requirements | check_stt_model | check_microphone.

(** How a call ends: with a value, or with the SystemExit of
    [load_config]. *)
Inductive Outcome (A : Type) :=
| Returns (a : A)
| SystemExit.
Arguments Returns {A}.
Arguments SystemExit {A}.

Definition M (A : Type) : Type := Outcome A * list Check.

Definition ret {A} (a : A) : M A := (Returns a, []).

Definition bind {A B} (m : M A) (k : A -> M B) : M B :=
  match m with
  | (Returns a, t1) => let '(b, t2) := k a in (b, (t1 ++ t2)%list)
  | (SystemExit, t1) => (SystemExit, t1)
  end.

Definition called {A} (c : Check) (outcome : Outcome A) : M A :=
  (outcome, [c]).

Notation "x <- m ;; k" := (bind m (fun x => k))
  (at level 61, m at next level, right associativity).

Definition required_dirs : list string :=
  ["recordings"; "transcripts"; "db"; "logs"; "cache"].

Fixpoint check_dirs (env : Env) (dirs : list string) : bool * option string :=
  match dirs with
  | [] => (true, None)
  | subdir :: rest =>
      if negb (subdir_usable env subdir) then
        (false, Some "Cannot create/access data directories")
      else if negb (subdir_writable env subdir) then
        (false, Some ("Cannot write to " ++ subdir ++ "/ directory"))
      else check_dirs env rest
  end.

Definition _check_paths (env : Env) : bool * option string :=
  if negb (data_dir_usable env) then
    (false, Some "Cannot create/access data directories")
  else check_dirs env required_dirs.

Definition _check_requirements (env : Env) : bool * option string :=
  if requirements_lock_exists env then (true, None)
  else (false, Some "requirements.lock.txt not found (informational)").

(** [_check_stt_model]: the import, then [load_config] for the name of
    the model ("small" when it raises), then the constructor. *)
Definition _check_stt_model (env : Env) : Outcome (bool * option string) :=
  if negb (faster_whisper_installed env) then
    Returns (false, Some "faster-whisper not installed")
  else
    match Config.load_config (python env) (config_file env) with
    | Config.Exits _ => SystemExit
    | loaded =>
        let model_name :=
          match loaded with
          | Config.Returns config => Config.model (Config.stt config)
          | _ => "small"
          end in
        match whisper env model_name with
        | Loaded => Returns (true, None)
        | LoadImportError => Returns (false, Some "faster-whisper not installed")
        | LoadRaises ty => Returns (false, Some ("Cannot load STT model: " ++ ty))
        end
    end.

(** [_check_microphone]: how the call ends, and the configuration file
    afterwards (a working device that differs from the configured one is
    saved; a failure to save is logged and nothing else). *)
Definition _check_microphone (env : Env)
  : Outcome (bool * option string * option string) * Config.File :=
  match Config.load_config (python env) (config_file env) with
  | Config.Exits _ => (SystemExit, config_file env)
  | Config.Raises ty =>
      (Returns (false, Some ("Microphone check error: " ++ ty), None),
       config_file env)
  | Config.Returns config =>
      let configured := Config.device (Config.audio config) in
      let '(success, error_hint, device_identifier) :=
        fst (AudioCapture.check_microphone (host env) configured) in
      let file :=
        match success, device_identifier with
        | true, Some found =>
            if negb (String.eqb found configured) then
              snd (Config.update_audio_device (config_file env)
                                              (config_write env) found)
            else config_file env
        | _, _ => config_file env
        end in
      (Returns (success, error_hint, device_identifier), file)
  end.

Definition _perform_checks (env : Env) : M DoctorCheckResult :=
  path_check <- called check_paths (Returns (_check_paths env)) ;;
  if negb (fst path_check) then
    ret (Result false (Some "PATH_NOT_WRITABLE") (snd path_check) false false)
  else
    req_check <- called check_requirements
                        (Returns (_check_requirements env)) ;;
    (* a failed requirements check is logged and nothing else *)
    model_check <- called check_stt_model (_check_stt_model env) ;;
    let model_ok := fst model_check in
    if negb model_ok then
      ret (Result false (Some "MODEL_NOT_LOADABLE") (snd model_check)
                  true false)
    else
      mic_check <- called check_microphone (fst (_check_microphone env)) ;;
      let mic_ok := fst (fst mic_check) in
      let mic_error_hint := snd (fst mic_check) in
      if negb mic_ok then
        ret (Result false (Some "MIC_NOT_AVAILABLE") mic_error_hint
                    false true)
      else
        ret (Result true None None true true).

(** The same environment with another answer for the manifest. *)
Definition with_requirements (present : bool) (env : Env) : Env :=
  {| data_dir_usable := data_dir_usable env;
     subdir_usable := subdir_usable env;
     subdir_writable := subdir_writable env;
     requirements_lock_exists := present;
     faster_whisper_installed := faster_whisper_installed env;
     whisper := whisper env;
     python := python env;
     config_file := config_file env;
     config_write := config_write env;
     host := host env |}.

(** A machine on which every check passes. *)
Definition healthy : Env :=
  {| data_dir_usable := true;
     subdir_usable := fun _ => true;
     subdir_writable := fun _ => true;
     requirements_lock_exists := true;
     faster_whisper_installed := true;
     whisper := fun _ => Loaded;
     python := Config.sample_python;
     config_file := Config.Document Config.sample_document;
     config_write := Config.Written;
     host := AudioCapture.studio |}.

(** The same machine with another sound host, file system or
    configuration file. *)
Definition with_host (h : AudioCapture.Host) (env : Env) : Env :=
  {| data_dir_usable := data_dir_usable env;
     subdir_usable := subdir_usable env;
     subdir_writable := subdir_writable env;
     requirements_lock_exists := requirements_lock_exists env;
     faster_whisper_installed := faster_whisper_installed env;
     whisper := whisper env;
     python := python env;
     config_file := config_file env;
     config_write := config_write env;
     host := h |}.

Definition with_writable (writable : string -> bool) (env : Env) : Env :=
  {| data_dir_usable := data_dir_usable env;
     subdir_usable := subdir_usable env;
     subdir_writable := writable;
     requirements_lock_exists := requirements_lock_exists env;
     faster_whisper_installed := faster_whisper_installed env;
     whisper := whisper env;
     python := python env;
     config_file := config_file env;
     config_write := config_write env;
     host := host env |}.

Definition with_config (file : Config.File) (env : Env) : Env :=
  {| data_dir_usable := data_dir_usable env;
     subdir_usable := subdir_usable env;
     subdir_writable := subdir_writable env;
     requirements_lock_exists := requirements_lock_exists env;
     faster_whisper_installed := faster_whisper_installed env;
     whisper := whisper env;
     python := python env;
     config_file := file;
     config_write := config_write env;
     host := host env |}.

End Doctor.

(* ------------------------------------------------------------------ *)
(** ** [services/fake_background_service.py]

    The worker reads [self.is_running] before each of its ten events and
    once more after the loop; other threads may have changed the flag in
    between.  [running_at k] is what the k-th read finds. *)

Module FakeBackground.

(** [str(n)] for a natural number. *)
Definition decimal (n : nat) : string :=
  DecimalString.NilEmpty.string_of_uint (Nat.to_uint n).

(** The message of the pass with loop variable [i]. *)
Definition fake_event (i : nat) : string :=
  "Fake event " ++ decimal (i + 1) ++ "/10".

Definition final_message : string := "Fake background task completed".

(** The passes of the loop from loop variable [i] on, [remaining] of them
    left: the messages given to the callback and the number of reads of
    the flag made so far. *)
Fixpoint event_loop (running_at : nat -> bool) (i remaining : nat)
  : list string * nat :=
  match remaining with
  | O => ([], i)
  | S rest =>
      if running_at i then
        let '(messages, reads) := event_loop running_at (S i) rest in
        (fake_event i :: messages, reads)
      else ([], S i)
  end.

(** [_background_worker]: the messages given to [event_callback], in
    order, and [self.is_running] when the worker ends. *)
Definition _background_worker (running_at : nat -> bool)
  : list string * bool :=
  let '(messages, reads) := event_loop running_at 0 10 in
  let final := if running_at reads then [final_message] else [] in
  ((messages ++ final)%list, false).

End FakeBackground.

(* ================================================================== *)
(** * Properties of the state machine *)

Section StateMachineFacts.

Import StateMachine.

(** [transition] is [_calculate_transition] applied to the current state. *)
Lemma returned_calculate (self : t) (e : AppEvent) :
  returned (transition self e) =
  fst (_calculate_transition (_current_state self) e).
Proof.
  unfold returned, transition.
  destruct (_calculate_transition (_current_state self) e) as [[n|] w];
    reflexivity.
Qed.

(** The object after a call holds the new state, or the old one when the
    event was rejected. *)
Lemma after_transition (self : t) (e : AppEvent) :
  after (transition self e) =
  match returned (transition self e) with
  | Some n => mk n
  | None => self
  end.
Proof.
  unfold returned, after, transition.
  destruct (_calculate_transition (_current_state self) e) as [[n|] w];
    reflexivity.
Qed.

(** A rejected event writes the blocked-transition warning last. *)
Lemma rejected_logged (self : t) (e : AppEvent) :
  returned (transition self e) = None ->
  exists before,
    logged (transition self e) =
    (before ++
     [Log.warning ("Invalid transition blocked: "
                   ++ AppState_str (_current_state self)
                   ++ " --" ++ type_name (type_of e) ++ "--> (blocked)")])%list.
Proof.
  unfold returned, logged, transition.
  destruct (_calculate_transition (_current_state self) e) as [[n|] w];
    simpl; intros H; [discriminate|].
  now exists w.
Qed.

(** Case analysis on a state and an event, down to the success flag. *)
Ltac by_cases s e :=
  destruct s; destruct e as [| | | | | ? ? | ? ? ? | [|] ? ? | ? ? | ? ?].

(** C1. For every row of the transition table other than the
    QuitRequested row, every state the row lists and every event its
    pattern matches, [transition] returns the target of the row and
    [current_state] is that target afterwards. *)
Theorem table_rows_are_taken (row : SpecTable.Row) (s target : AppState)
  (e : AppEvent) :
  In row SpecTable.rows ->
  SpecTable.lists row s e = true ->
  SpecTable.target row = SpecTable.To target ->
  returned (transition (mk s) e) = Some target /\
  current_state (after (transition (mk s) e)) = target.
Proof.
  intros Hin Hlists Htarget.
  rewrite after_transition, returned_calculate.
  unfold SpecTable.rows in Hin. simpl in Hin.
  repeat (destruct Hin as [<- | Hin]);
    try contradiction;
    simpl in Htarget; try discriminate;
    injection Htarget as <-;
    by_cases s e; simpl in Hlists; try discriminate; split; reflexivity.
Qed.

Lemma table_rows_are_taken_witness :
  returned (transition (mk PAUSED) KeyF10Pressed) = Some PROCESSING /\
  current_state (after (transition (mk PAUSED) KeyF10Pressed)) = PROCESSING.
Proof.
  apply (table_rows_are_taken ([PAUSED], SpecTable.Kind TKeyF10Pressed,
                               SpecTable.To PROCESSING)).
  - simpl. tauto.
  - reflexivity.
  - reflexivity.
Defined.

(** C2. A pair of a state and an event that no row of the table lists,
    and in particular every event of a kind the table does not know, is
    rejected: [transition] returns [None] as an ordinary result, the
    machine is the same object with the same state afterwards, and the
    rejection is logged. *)
Theorem unlisted_pairs_are_rejected (s : AppState) (e : AppEvent) :
  SpecTable.lookup s e = None \/ SpecTable.known (type_of e) = false ->
  returned (transition (mk s) e) = None /\
  after (transition (mk s) e) = mk s /\
  In (Log.warning ("Invalid transition blocked: " ++ AppState_str s
                   ++ " --" ++ type_name (type_of e) ++ "--> (blocked)"))
     (logged (transition (mk s) e)).
Proof.
  intros H.
  assert (Hnone : returned (transition (mk s) e) = None).
  { rewrite returned_calculate.
    destruct H as [H | H];
      by_cases s e; simpl in H; try discriminate; reflexivity. }
  split; [exact Hnone|]. split.
  - rewrite after_transition, Hnone. reflexivity.
  - destruct (rejected_logged (mk s) e Hnone) as [before ->].
    apply in_or_app. right. simpl. left. reflexivity.
Qed.

Lemma unlisted_pairs_are_rejected_witness :
  returned (transition (mk PROCESSING) KeyF9Pressed) = None /\
  after (transition (mk PROCESSING) KeyF9Pressed) = mk PROCESSING /\
  In (Log.warning
        "Invalid transition blocked: PROCESSING --KeyF9Pressed--> (blocked)")
     (logged (transition (mk PROCESSING) KeyF9Pressed)).
Proof.
  apply (unlisted_pairs_are_rejected PROCESSING KeyF9Pressed).
  left. reflexivity.
Defined.

(** An event of a class outside the module is unknown to the table. *)
Example unknown_kind_rejected :
  SpecTable.known (type_of (OtherObject "Mouse" "x=3")) = false /\
  returned (transition (mk READY) (OtherObject "Mouse" "x=3")) = None.
Proof. split; reflexivity. Qed.

(** C3, as the claim states it, fails: after Redo in DONE, a FullSTTDone
    that carries the job id of the superseded job moves the machine from
    PROCESSING to DONE. *)
Lemma late_done_not_discarded :
  ~ (forall transcript old_job_id : string,
       current_state
         (run (mk DONE) [KeyF8Pressed; FullSTTDone transcript old_job_id])
       = PROCESSING).
Proof.
  intros H. specialize (H "late text" "job-1"). discriminate H.
Qed.

(** C3, amended. [transition] does not look at [job_id]: in PROCESSING
    every FullSTTDone is accepted and leads to DONE, in every other state
    every FullSTTDone is rejected, whatever transcript and job id it
    carries. *)
Theorem full_stt_done_ignores_job_id (s : AppState)
  (transcript job_id : string) :
  returned (transition (mk s) (FullSTTDone transcript job_id)) =
  (if AppState_eqb s PROCESSING then Some DONE else None) /\
  after (transition (mk s) (FullSTTDone transcript job_id)) =
  (if AppState_eqb s PROCESSING then mk DONE else mk s).
Proof. destruct s; split; reflexivity. Qed.

(** C4, as the claim states it, fails: QuitRequested is a rejected
    transition, here in INIT. *)
Lemma quit_is_rejected_in_init :
  ~ (forall s : AppState,
       returned (transition (mk s) QuitRequested) <> None).
Proof. intros H. apply (H INIT). reflexivity. Qed.

(** C4, amended. A QuitRequested event never changes the current state,
    whatever the state is; the result of [transition] is a state of
    [AppState] or [None], there is no terminal outcome; and in INIT, where
    [get_allowed_transitions] does not list it, QuitRequested is
    rejected. *)
Theorem quit_leaves_state_unchanged :
  (forall s : AppState,
     current_state (after (transition (mk s) QuitRequested)) = s) /\
  returned (transition (mk INIT) QuitRequested) = None /\
  ~ In TQuitRequested (get_allowed_transitions (mk INIT) None).
Proof.
  split; [intros s; destruct s; reflexivity|].
  split; [reflexivity|].
  simpl. intros [H | []]. discriminate H.
Qed.

(** Apart from QuitRequested, the allowed list and the transition
    function agree in every state. *)
Lemma allowed_matches_accepted (self : t) (s : AppState) (k : EventType) :
  k <> TQuitRequested ->
  (In k (get_allowed_transitions self (Some s)) <-> accepts s k).
Proof.
  intros Hk. split.
  - intros Hin.
    destruct s; simpl in Hin;
      repeat (destruct Hin as [<- | Hin]); try contradiction;
      try (exfalso; apply Hk; reflexivity);
      first
        [ exists KeyF9Pressed; split; [reflexivity | discriminate]
        | exists KeyF10Pressed; split; [reflexivity | discriminate]
        | exists KeyF8Pressed; split; [reflexivity | discriminate]
        | exists KeyF2Pressed; split; [reflexivity | discriminate]
        | exists (FullSTTDone "" ""); split; [reflexivity | discriminate]
        | exists (FullSTTFail "" "" ""); split; [reflexivity | discriminate]
        | exists (DoctorCompleted true None None);
          split; [reflexivity | discriminate] ].
  - intros [e [<- Hacc]].
    by_cases s e; simpl in Hacc; try (exfalso; apply Hacc; reflexivity);
      try (exfalso; apply Hk; reflexivity);
      simpl; tauto.
Qed.

(** C5 at READY and QuitRequested: the list names the kind as allowed,
    and [_calculate_transition] turns it down, logging it as unknown. *)
Theorem quit_allowed_but_not_accepted :
  In TQuitRequested (get_allowed_transitions (mk READY) (Some READY)) /\
  _calculate_transition READY QuitRequested =
  (None, [Log.warning "Unknown event type: QuitRequested"]) /\
  ~ accepts READY TQuitRequested.
Proof.
  split; [simpl; tauto|]. split; [reflexivity|].
  intros [e [He Hacc]].
  destruct e; try discriminate He. apply Hacc. reflexivity.
Qed.

(** What [transition] logs is the audit entry for the old state, the kind
    of the event and the outcome. *)
Lemma logged_is_audit_entry (s : AppState) (e : AppEvent) :
  logged (transition (mk s) e) =
  Audit.entries s (type_of e) (returned (transition (mk s) e)).
Proof. by_cases s e; reflexivity. Qed.

(** C9, as the claim states it, fails: two DoctorCompleted events that
    differ in their payload only are logged differently in INIT. *)
Lemma doctor_payload_shows_in_log :
  ~ (forall (s : AppState) (e1 e2 : AppEvent),
       type_of e1 = type_of e2 ->
       logged (transition (mk s) e1) = logged (transition (mk s) e2)).
Proof.
  intros H.
  specialize (H INIT (DoctorCompleted true None None)
                (DoctorCompleted false (Some "MIC_NOT_AVAILABLE")
                                 (Some "No input devices"))
                eq_refl).
  discriminate H.
Qed.

(** C9, amended. Two events of the same kind that are submitted in the
    same state and have the same outcome are logged identically: the
    entries are a function of the old state, the kind and the outcome. *)
Theorem log_depends_on_kind_and_outcome (s : AppState) (e1 e2 : AppEvent) :
  type_of e1 = type_of e2 ->
  returned (transition (mk s) e1) = returned (transition (mk s) e2) ->
  logged (transition (mk s) e1) = logged (transition (mk s) e2).
Proof.
  intros Hkind Hout.
  rewrite !logged_is_audit_entry, Hkind, Hout. reflexivity.
Qed.

Lemma log_depends_on_kind_and_outcome_witness :
  logged (transition (mk PROCESSING) (FullSTTDone "first transcript" "1")) =
  logged (transition (mk PROCESSING) (FullSTTDone "another one" "2")).
Proof.
  apply (log_depends_on_kind_and_outcome PROCESSING
           (FullSTTDone "first transcript" "1")
           (FullSTTDone "another one" "2")).
  - reflexivity.
  - reflexivity.
Defined.

(** The transcript, the job id and the error texts never reach the log. *)
Lemma stt_payload_not_logged (s : AppState) :
  (forall t1 j1 t2 j2,
     logged (transition (mk s) (FullSTTDone t1 j1)) =
     logged (transition (mk s) (FullSTTDone t2 j2))) /\
  (forall c1 h1 j1 c2 h2 j2,
     logged (transition (mk s) (FullSTTFail c1 h1 j1)) =
     logged (transition (mk s) (FullSTTFail c2 h2 j2))).
Proof. split; intros; destruct s; reflexivity. Qed.

End StateMachineFacts.

(* ================================================================== *)
(** * Properties of the snippet tracker *)

Section SnippetTrackerFacts.

Import SnippetTracker.

Context {T : Type} {S : Seconds T}.

Lemma start_in_episode (self : t T) :
  is_running self = false ->
  geb zero (threshold_seconds self) = false ->
  in_episode (start self) /\ snippet_triggered (start self) = false.
Proof.
  intros Hrun Hpos. unfold start, in_episode, reached. rewrite Hrun. simpl.
  rewrite Hpos. repeat split.
Qed.

(** One call inside an episode: the call triggers the snippet exactly
    when it is the one that makes the accumulated time reach the
    threshold. *)
Lemma step_in_episode (s : t T) (c : Call) :
  in_episode s -> keeps_episode c = true ->
  in_episode (fst (step s c)) /\
  snd (step s c) = reached (fst (step s c)) && negb (snippet_triggered s) /\
  snippet_triggered s || reached (fst (step s c)) = reached (fst (step s c)).
Proof.
  destruct s as [thr run pau cum trg].
  unfold in_episode, reached. simpl. intros [-> ->] Hc.
  destruct c; try discriminate Hc; simpl;
    unfold start, pause, resume, worker_iteration; simpl.
  - destruct (geb cum thr); auto.
  - destruct pau; simpl; destruct (geb cum thr); auto.
  - destruct pau; simpl; destruct (geb cum thr); auto.
  - destruct pau; simpl.
    + destruct (geb cum thr); auto.
    + destruct (geb cum thr) eqn:E; simpl.
      * rewrite E. auto.
      * destruct (geb (add cum check_interval) thr) eqn:E'; simpl;
          rewrite E'; auto.
Qed.

Lemma fires_cons (s : t T) (c : Call) (cs : list Call) :
  fires s (c :: cs) =
  ((if snd (step s c) then 1 else 0) + fires (fst (step s c)) cs)%nat.
Proof.
  unfold fires. simpl. destruct (snd (step s c)); reflexivity.
Qed.

Lemma fires_app (s : t T) (cs ds : list Call) :
  fires s (cs ++ ds) = (fires s cs + fires (final s cs) ds)%nat.
Proof.
  revert s. induction cs as [|c cs IH]; intros s.
  - reflexivity.
  - simpl app. rewrite !fires_cons, IH. unfold final. simpl. lia.
Qed.

Lemma final_app (s : t T) (cs ds : list Call) :
  final s (cs ++ ds) = final (final s cs) ds.
Proof. unfold final. apply fold_left_app. Qed.

(** The number of marks [first_reached] sets. *)
Lemma first_reached_count (seen : bool) (l : list (t T)) :
  List.length (filter (fun b : bool => b) (first_reached seen l)) =
  if negb seen && existsb reached l then 1%nat else 0%nat.
Proof.
  revert seen. induction l as [|s l IH]; intros seen; simpl.
  - now rewrite andb_false_r.
  - destruct seen; simpl.
    + rewrite andb_false_r. simpl. rewrite IH. reflexivity.
    + rewrite andb_true_r. destruct (reached s); simpl; rewrite IH;
        reflexivity.
Qed.

Lemma filter_snd_length {A} (l : list (A * bool)) :
  List.length (filter snd l) =
  List.length (filter (fun b : bool => b) (map snd l)).
Proof.
  induction l as [|[a b] l IH]; simpl; [reflexivity|].
  destruct b; simpl; rewrite IH; reflexivity.
Qed.

(** Through an episode, the calls that trigger the snippet are the ones
    [first_reached] marks. *)
Lemma trace_in_episode (s : t T) (cs : list Call) :
  in_episode s -> forallb keeps_episode cs = true ->
  map snd (trace s cs) =
  first_reached (snippet_triggered s) (map fst (trace s cs)) /\
  in_episode (final s cs).
Proof.
  revert s. induction cs as [|c cs IH]; intros s Hs Hcs.
  - split; [reflexivity | exact Hs].
  - simpl in Hcs. apply andb_prop in Hcs as [Hc Hcs].
    destruct (step_in_episode s c Hs Hc) as [Hs' [Hflag Hseen]].
    destruct (IH (fst (step s c)) Hs' Hcs) as [IHt IHf].
    split.
    + simpl. rewrite Hflag, Hseen. f_equal.
      rewrite IHt. f_equal. apply Hs'.
    + exact IHf.
Qed.

(** A paused tracker that is neither resumed nor stopped stays as it is
    and triggers nothing. *)
Lemma paused_is_quiet (p : t T) (cs : list Call) :
  is_running p = true -> is_paused p = true ->
  forallb keeps_paused cs = true ->
  fires p cs = 0%nat /\ final p cs = p.
Proof.
  intros Hrun Hpau. induction cs as [|c cs IH]; intros Hcs.
  - split; reflexivity.
  - simpl in Hcs. apply andb_prop in Hcs as [Hc Hcs].
    assert (Hstep : step p c = (p, false)).
    { destruct c; try discriminate Hc; simpl;
        unfold start, pause, worker_iteration; rewrite Hrun, ?Hpau;
        reflexivity. }
    rewrite fires_cons. unfold final. simpl. rewrite Hstep. simpl.
    apply IH. exact Hcs.
Qed.

(** Nothing in an episode clears the flag. *)
Lemma triggered_stays (s : t T) (cs : list Call) :
  in_episode s -> forallb keeps_episode cs = true ->
  snippet_triggered s = true -> snippet_triggered (final s cs) = true.
Proof.
  revert s. induction cs as [|c cs IH]; intros s Hs Hcs Ht.
  - exact Ht.
  - simpl in Hcs. apply andb_prop in Hcs as [Hc Hcs].
    destruct (step_in_episode s c Hs Hc) as [Hs' [_ Hseen]].
    change (final s (c :: cs)) with (final (fst (step s c)) cs).
    apply IH; [exact Hs' | exact Hcs|].
    rewrite Ht in Hseen. simpl in Hseen.
    destruct Hs' as [_ ->]. symmetry. exact Hseen.
Qed.

(** Nothing was triggered in an episode whose flag is still clear. *)
Lemma untriggered_never_fired (s : t T) (cs : list Call) :
  in_episode s -> forallb keeps_episode cs = true ->
  snippet_triggered (final s cs) = false -> fires s cs = 0%nat.
Proof.
  revert s. induction cs as [|c cs IH]; intros s Hs Hcs Hend.
  - reflexivity.
  - simpl in Hcs. apply andb_prop in Hcs as [Hc Hcs].
    destruct (step_in_episode s c Hs Hc) as [Hs' [Hflag _]].
    change (final s (c :: cs)) with (final (fst (step s c)) cs) in Hend.
    rewrite fires_cons, (IH _ Hs' Hcs Hend).
    destruct (snd (step s c)); [|reflexivity].
    symmetry in Hflag. apply andb_prop in Hflag as [Hreach _].
    assert (Ht : snippet_triggered (fst (step s c)) = true)
      by (destruct Hs' as [_ ->]; exact Hreach).
    rewrite (triggered_stays _ cs Hs' Hcs Ht) in Hend. discriminate Hend.
Qed.

Lemma threshold_kept (s : t T) (cs : list Call) :
  threshold_seconds (final s cs) = threshold_seconds s.
Proof.
  revert s. induction cs as [|c cs IH]; intros s; [reflexivity|].
  change (final s (c :: cs)) with (final (fst (step s c)) cs).
  rewrite IH. destruct s as [thr run pau cum trg].
  destruct c; simpl;
    unfold start, pause, resume, stop, worker_iteration; simpl;
    repeat match goal with |- context [if ?b then _ else _] => destruct b end;
    reflexivity.
Qed.

(** [stop] on a running tracker leaves the tracker of [__init__]. *)
Lemma stop_resets (s : t T) :
  is_running s = true -> stop s = init (threshold_seconds s).
Proof. intros H. unfold stop, init. rewrite H. reflexivity. Qed.

(** C6, amended. An episode is [start] on a tracker that is not running,
    followed by any calls and worker ticks other than [stop]; the
    threshold is positive.  Then
    - the snippet is triggered by exactly the first call after which
      [cumulative_time >= threshold_seconds], so once if the threshold is
      reached in the episode and never otherwise;
    - if the flag is still clear when the tracker is paused (after the
      calls [before]), nothing was triggered up to the pause and nothing
      is for as long as the tracker is neither resumed nor stopped;
    - [stop] then leaves the tracker not running, not paused, with
      [cumulative_time] zero and the flag clear. *)
Theorem snippet_fires_at_first_reach (self : t T)
  (cs before quiet : list Call) :
  is_running self = false ->
  geb zero (threshold_seconds self) = false ->
  forallb keeps_episode cs = true ->
  forallb keeps_episode before = true ->
  forallb keeps_paused quiet = true ->
  let episode := Start :: cs in
  map snd (trace self episode) =
    first_reached false (map fst (trace self episode)) /\
  fires self episode =
    (if existsb reached (map fst (trace self episode)) then 1 else 0)%nat /\
  (snippet_triggered (final self (Start :: before ++ [Pause])) = false ->
   fires self (Start :: before ++ Pause :: quiet) = 0%nat) /\
  stop (final self episode) = init (threshold_seconds self).
Proof.
  intros Hidle Hpos Hcs Hbefore Hquiet episode.
  destruct (start_in_episode self Hidle Hpos) as [Hstart Hclear].
  assert (Hep : forallb keeps_episode episode = true) by exact Hcs.
  assert (Hmarks : map snd (trace self episode) =
                   first_reached false (map fst (trace self episode))).
  { unfold episode. simpl.
    destruct (trace_in_episode (start self) cs Hstart Hcs) as [Ht _].
    rewrite Ht, Hclear.
    assert (Hr : reached (start self) = false)
      by (destruct Hstart as [_ <-]; exact Hclear).
    rewrite Hr. reflexivity. }
  split; [exact Hmarks|]. split; [|split].
  - unfold fires. rewrite filter_snd_length, Hmarks, first_reached_count.
    reflexivity.
  - intros Hflag.
    assert (Hb : forallb keeps_episode (before ++ [Pause]) = true)
      by (rewrite forallb_app, Hbefore; reflexivity).
    change (before ++ Pause :: quiet)%list
      with (before ++ [Pause] ++ quiet)%list.
    rewrite fires_cons. simpl snd. simpl fst.
    rewrite app_assoc, fires_app.
    change (final self (Start :: before ++ [Pause]))
      with (final (start self) (before ++ [Pause])) in Hflag.
    rewrite (untriggered_never_fired _ _ Hstart Hb Hflag).
    rewrite final_app.
    destruct (trace_in_episode (start self) before Hstart Hbefore)
      as [_ [Hrun _]].
    apply paused_is_quiet; [| |exact Hquiet];
      unfold final at 1; simpl; unfold pause; rewrite Hrun; simpl;
      destruct (is_paused (final (start self) before)) eqn:E; simpl; auto.
  - change (final self episode) with (final (start self) cs).
    destruct (trace_in_episode (start self) cs Hstart Hcs) as [_ [Hrun _]].
    rewrite (stop_resets _ Hrun), threshold_kept.
    unfold start. rewrite Hidle. reflexivity.
Qed.

End SnippetTrackerFacts.

(** ** Runs with threshold 8.0 *)

Section SnippetTrackerRuns.

Import SnippetTracker.

(** With exact arithmetic the eightieth tick reaches 8.0. *)
Example exact_run_fires_at_tick_80 :
  fires (init 8%Q) (Start :: repeat Tick 79) = 0%nat /\
  map snd (trace (init 8%Q) (Start :: repeat Tick 80)) =
    (repeat false 80 ++ [true])%list /\
  fires (init 8%Q) (Start :: repeat Tick 300) = 1%nat.
Proof. vm_compute. repeat split. Qed.

(** With binary64 eighty additions of 0.1 stay below 8.0, and the
    eighty-first tick triggers the snippet. *)
Example binary64_run_fires_at_tick_81 :
  fires (init Binary64.eight) (Start :: repeat Tick 80) = 0%nat /\
  map snd (trace (init Binary64.eight) (Start :: repeat Tick 81)) =
    (repeat false 81 ++ [true])%list /\
  fires (init Binary64.eight) (Start :: repeat Tick 300) = 1%nat.
Proof. vm_compute. repeat split. Qed.

(** C6, as the claim states it, fails: a tracker paused after three
    seconds and resumed later triggers the snippet in the remainder of the
    same episode. *)
Lemma paused_then_resumed_fires :
  ~ (forall before rest : list Call,
       forallb keeps_episode before = true ->
       forallb keeps_episode rest = true ->
       snippet_triggered
         (final (init Binary64.eight) (Start :: before ++ [Pause])) = false ->
       fires (init Binary64.eight) (Start :: before ++ Pause :: rest) = 0%nat).
Proof.
  intros H.
  specialize (H (repeat Tick 30)
                (repeat Tick 5 ++ Resume :: repeat Tick 60)%list
                eq_refl eq_refl).
  vm_compute in H. specialize (H eq_refl). discriminate H.
Qed.

Lemma snippet_fires_at_first_reach_witness :
  let self := init Binary64.eight in
  let cs := (repeat Tick 30 ++ Pause :: Tick :: Resume :: repeat Tick 60)%list in
  let before := repeat Tick 30 in
  let quiet := [Tick; Tick; Pause; Tick] in
  let episode := Start :: cs in
  map snd (trace self episode) =
    first_reached false (map fst (trace self episode)) /\
  fires self episode =
    (if existsb reached (map fst (trace self episode)) then 1 else 0)%nat /\
  (snippet_triggered (final self (Start :: before ++ [Pause])) = false ->
   fires self (Start :: before ++ Pause :: quiet) = 0%nat) /\
  stop (final self episode) = init (threshold_seconds self).
Proof.
  intros self cs before quiet.
  apply (snippet_fires_at_first_reach self cs before quiet).
  - reflexivity.
  - vm_compute. reflexivity.
  - reflexivity.
  - reflexivity.
  - reflexivity.
Defined.

End SnippetTrackerRuns.

(* ================================================================== *)
(** * Properties of the speech-to-text service *)

Section STTFacts.

Import STT.

(** The failure both full-transcription paths build for a request that
    finds the engine not ready. *)
Lemma full_internal_not_ready (self : t) (audio_data : Audio) (job : string) :
  not_ready self = true ->
  _transcribe_full_internal self audio_data job =
  (FullResult false None (Some "STT_NOT_READY") (Some "STT nicht bereit") job,
   []).
Proof. intros H. unfold _transcribe_full_internal. now rewrite H. Qed.

Lemma snippet_internal_not_ready (self : t) (audio_data : Audio) :
  not_ready self = true ->
  _transcribe_snippet_internal self audio_data =
  (SnippetResult false None None (Some "STT nicht bereit"), []).
Proof. intros H. unfold _transcribe_snippet_internal. now rewrite H. Qed.

(** C7, as the claim states it, fails for [transcribe_snippet]: a request
    made while the engine is not ready is handed to a worker, and a worker
    that runs once loading has finished calls the model and succeeds. *)
Lemma snippet_request_outlives_loading :
  ~ (forall (self running : t) (audio_data : Audio),
       not_ready self = true ->
       let r := target (transcribe_snippet self audio_data) running in
       s_success (fst r) = false /\
       s_error_hint (fst r) = Some "STT nicht bereit" /\
       snd r = []).
Proof.
  intros H.
  destruct (H (mk None false) (loaded echo) (Some [1%Q]) eq_refl) as [Hs _].
  discriminate Hs.
Qed.

(** C7, amended. A [transcribe_full] request made while the engine is not
    ready is turned down by the caller: whatever the state of the engine
    when the worker runs, the callback gets the STT_NOT_READY failure with
    the hint and the job id of the request, and the model is not called.
    A [transcribe_snippet] request is tested by its worker: if the engine
    is still not ready when the worker runs, the callback gets the failure
    with the same hint and the model is not called.  Neither waits for the
    model to load. *)
Theorem not_ready_requests_fail (self running still : t)
  (audio_data : Audio) (job : string) :
  not_ready self = true ->
  not_ready still = true ->
  target (transcribe_full self audio_data job) running =
    (FullResult false None (Some "STT_NOT_READY") (Some "STT nicht bereit")
                job, []) /\
  target (transcribe_snippet self audio_data) still =
    (SnippetResult false None None (Some "STT nicht bereit"), []).
Proof.
  intros H Hstill. split.
  - unfold transcribe_full. rewrite H. reflexivity.
  - simpl. apply snippet_internal_not_ready. exact Hstill.
Qed.

Lemma not_ready_requests_fail_witness :
  let loading := mk (Some echo) false in
  target (transcribe_full loading (Some [1%Q]) "job-7") (loaded echo) =
    (FullResult false None (Some "STT_NOT_READY") (Some "STT nicht bereit")
                "job-7", []) /\
  target (transcribe_snippet loading (Some [1%Q])) loading =
    (SnippetResult false None None (Some "STT nicht bereit"), []).
Proof.
  intros loading.
  apply (not_ready_requests_fail loading (loaded echo) loading).
  - reflexivity.
  - reflexivity.
Defined.

End STTFacts.

(* ================================================================== *)
(** * Properties of the recording buffer *)

Section RecordingFacts.

Import Recording.

Open Scope Z_scope.

(** [get_full] returns the concatenation of the chunks, which is empty
    when there are none, and leaves the service as it was. *)
Lemma get_full_is_concat (self : t) :
  get_full self = (List.concat (_chunks self), self).
Proof. unfold get_full. destruct (_chunks self); reflexivity. Qed.

(** Neither reader changes the stored chunks. *)
Lemma readers_keep_chunks (self : t) (seconds : Q) :
  snd (get_snippet self seconds) = self /\ snd (get_full self) = self.
Proof.
  unfold get_snippet, get_full.
  destruct (_chunks self); simpl; [split; reflexivity|].
  match goal with |- context [if ?b then _ else _] => destruct b end;
    split; reflexivity.
Qed.

(** With nothing captured the snippet is empty. *)
Lemma get_snippet_nothing_captured (rate : Z) (seconds : Q) :
  fst (get_snippet (mk [] rate) seconds) = [].
Proof. reflexivity. Qed.

(** When at least one sample is requested, the snippet is the tail of the
    buffer of that length, or the whole buffer if it is shorter. *)
Lemma get_snippet_positive (self : t) (seconds : Q) :
  1 <= requested self seconds ->
  let buf := List.concat (_chunks self) in
  fst (get_snippet self seconds) =
  last_n (Z.to_nat (Z.min (requested self seconds)
                          (Z.of_nat (List.length buf)))) buf.
Proof.
  intros Hn buf. unfold get_snippet, last_n.
  destruct (_chunks self) as [|c cs] eqn:E.
  - reflexivity.
  - fold buf. cbv zeta.
    destruct (Z.of_nat (List.length buf) <=? requested self seconds) eqn:L;
      simpl fst.
    + apply Z.leb_le in L. rewrite Z.min_r by exact L.
      rewrite Nat2Z.id, Nat.sub_diag. reflexivity.
    + apply Z.leb_gt in L. rewrite Z.min_l by lia.
      unfold slice_from.
      destruct (- requested self seconds <? 0) eqn:N;
        [|apply Z.ltb_ge in N; lia].
      f_equal. lia.
Qed.

(** When no sample is requested, the snippet is the whole buffer. *)
Lemma get_snippet_none_requested (self : t) (seconds : Q) :
  requested self seconds = 0 ->
  fst (get_snippet self seconds) = List.concat (_chunks self).
Proof.
  intros Hn. unfold get_snippet.
  destruct (_chunks self) as [|c cs] eqn:E; [reflexivity|].
  cbv zeta. rewrite Hn.
  destruct (Z.of_nat (List.length (List.concat (c :: cs))) <=? 0) eqn:L;
    [reflexivity|].
  simpl fst. unfold slice_from.
  change (- 0 <? 0) with false. cbv iota.
  rewrite Z.min_l by lia. reflexivity.
Qed.

(** C10 at zero seconds: the last [min(int(0 * 16000), 3) = 0] samples of
    a buffer of three are none, and [get_snippet(0)] returns all three. *)
Theorem get_snippet_zero_seconds_returns_buffer :
  let self := mk [[1%Q; 2%Q]; [3%Q]] 16000 in
  let buf := List.concat (_chunks self) in
  requested self 0%Q = 0 /\
  last_n (Z.to_nat (Z.min (requested self 0%Q) (Z.of_nat (List.length buf))))
         buf = [] /\
  fst (get_snippet self 0%Q) = [1%Q; 2%Q; 3%Q].
Proof. repeat split. Qed.

End RecordingFacts.

(* ================================================================== *)
(** * Further properties of the state machine *)

Section StateMachineMore.

Import StateMachine.

Local Ltac cases s e :=
  destruct s; destruct e as [| | | | | ? ? | ? ? ? | [|] ? ? | ? ? | ? ?].

Lemma none_keeps_machine (self : t) (e : AppEvent) :
  returned (transition self e) = None -> after (transition self e) = self.
Proof. intros H. rewrite after_transition, H. reflexivity. Qed.

(** No accepted transition leads back to the state it starts from: the
    machine is unchanged after [transition] exactly when the event was
    rejected. *)
Theorem rejected_iff_unchanged (self : t) (e : AppEvent) :
  returned (transition self e) = None <-> after (transition self e) = self.
Proof.
  split; [apply none_keeps_machine|].
  destruct self as [s]. rewrite after_transition, returned_calculate.
  cases s e; simpl; intros H; try reflexivity; discriminate H.
Qed.

(** An event whose class is not in the list [get_allowed_transitions]
    gives for the current state is rejected and changes nothing. *)
Theorem unlisted_kind_is_rejected (self : t) (e : AppEvent) :
  ~ In (type_of e) (get_allowed_transitions self None) ->
  returned (transition self e) = None /\ after (transition self e) = self.
Proof.
  intros Hout.
  assert (Hnone : returned (transition self e) = None).
  { destruct self as [s]. rewrite returned_calculate.
    cases s e; simpl in *; try reflexivity; exfalso; apply Hout; tauto. }
  split; [exact Hnone|]. apply none_keeps_machine. exact Hnone.
Qed.

Lemma unlisted_kind_is_rejected_witness :
  returned (transition (mk READY) KeyF10Pressed) = None /\
  after (transition (mk READY) KeyF10Pressed) = mk READY.
Proof.
  apply (unlisted_kind_is_rejected (mk READY) KeyF10Pressed).
  simpl. intros [H | [H | [H | []]]]; discriminate H.
Defined.

(** During preflight and during processing no key press and no quit
    request changes the state, however many are submitted. *)
Theorem keys_do_not_interrupt (s : AppState) (events : list AppEvent) :
  s = INIT \/ s = PROCESSING ->
  forallb from_user events = true ->
  run (mk s) events = mk s.
Proof.
  intros Hs. induction events as [|e events IH]; intros Hev.
  - reflexivity.
  - simpl in Hev. apply andb_prop in Hev as [He Hev].
    simpl. replace (after (transition (mk s) e)) with (mk s).
    + apply IH. exact Hev.
    + symmetry. apply none_keeps_machine. rewrite returned_calculate.
      destruct Hs as [-> | ->]; destruct e; try discriminate He; reflexivity.
Qed.

Lemma keys_do_not_interrupt_witness :
  run (mk PROCESSING)
      [KeyF9Pressed; KeyF10Pressed; KeyF8Pressed; KeyF2Pressed; QuitRequested]
  = mk PROCESSING.
Proof.
  apply (keys_do_not_interrupt PROCESSING).
  - right. reflexivity.
  - reflexivity.
Defined.

(** The states that report an outcome are entered by the matching service
    event only: ERROR by a failed preflight in INIT or a failed
    transcription in PROCESSING, DONE by a finished transcription in
    PROCESSING, READY by a successful preflight in INIT. *)
Theorem outcome_states_need_service_events (s : AppState) (e : AppEvent) :
  (returned (transition (mk s) e) = Some ERROR <->
   (s = INIT /\ exists c h, e = DoctorCompleted false c h) \/
   (s = PROCESSING /\ exists c h j, e = FullSTTFail c h j)) /\
  (returned (transition (mk s) e) = Some DONE <->
   s = PROCESSING /\ exists t j, e = FullSTTDone t j) /\
  (returned (transition (mk s) e) = Some READY <->
   s = INIT /\ exists c h, e = DoctorCompleted true c h).
Proof.
  rewrite returned_calculate.
  split; [|split]; split.
  - cases s e; simpl; intros H; try discriminate H;
      [left | right]; split; eauto.
  - intros [[-> [c [h ->]]] | [-> [c [h [j ->]]]]]; reflexivity.
  - cases s e; simpl; intros H; try discriminate H; split; eauto.
  - intros [-> [t0 [j ->]]]. reflexivity.
  - cases s e; simpl; intros H; try discriminate H; split; eauto.
  - intros [-> [c [h ->]]]. reflexivity.
Qed.

(** No state is a trap: from every state a sequence of events leads to
    every other state. *)
Theorem every_state_reaches_every_state (s target : AppState) :
  exists events : list AppEvent, run (mk s) events = mk target.
Proof.
  exists
    ((match s with
      | INIT => [DoctorCompleted true None None]
      | READY => []
      | RECORDING | PAUSED =>
          [KeyF10Pressed; FullSTTDone "" ""; KeyF2Pressed;
           DoctorCompleted true None None]
      | PROCESSING =>
          [FullSTTDone "" ""; KeyF2Pressed; DoctorCompleted true None None]
      | DONE | ERROR => [KeyF2Pressed; DoctorCompleted true None None]
      end)
     ++
     (match target with
      | INIT => [KeyF2Pressed]
      | READY => []
      | RECORDING => [KeyF9Pressed]
      | PAUSED => [KeyF9Pressed; KeyF9Pressed]
      | PROCESSING => [KeyF9Pressed; KeyF10Pressed]
      | DONE => [KeyF9Pressed; KeyF10Pressed; FullSTTDone "" ""]
      | ERROR => [KeyF9Pressed; KeyF10Pressed; FullSTTFail "" "" ""]
      end))%list.
  destruct s, target; reflexivity.
Qed.

End StateMachineMore.

(* ================================================================== *)
(** * Further properties of the snippet tracker *)

Section SnippetTrackerMore.

Import SnippetTracker.

Context {T : Type} {S : Seconds T}.

(** Time spent paused does not count: pausing a running tracker, letting
    the worker tick any number of times and resuming gives back the
    tracker as it was before the pause. *)
Theorem pause_resume_round_trip (s : t T) (ticks : nat) :
  is_running s = true ->
  is_paused s = false ->
  resume (final (pause s) (repeat Tick ticks)) = s.
Proof.
  intros Hrun Hpau.
  assert (Hp : is_running (pause s) = true /\ is_paused (pause s) = true).
  { unfold pause. rewrite Hrun, Hpau. simpl. split; reflexivity. }
  destruct Hp as [Hr Hp].
  assert (Hq : forallb keeps_paused (repeat Tick ticks) = true).
  { induction ticks as [|n IH]; [reflexivity | exact IH]. }
  destruct (paused_is_quiet (pause s) _ Hr Hp Hq) as [_ ->].
  destruct s as [thr run pau cum trg]. simpl in *. subst run pau.
  reflexivity.
Qed.

(** On a tracker that is not running, [pause], [resume], [stop] and the
    ticks of a worker that is still alive change nothing and trigger
    nothing; only [start] has an effect. *)
Theorem idle_tracker_ignores_calls (s : t T) (cs : list Call) :
  is_running s = false ->
  forallb (fun c => match c with Start => false | _ => true end) cs = true ->
  final s cs = s /\ fires s cs = 0%nat.
Proof.
  intros Hidle. induction cs as [|c cs IH]; intros Hcs.
  - split; reflexivity.
  - simpl in Hcs. apply andb_prop in Hcs as [Hc Hcs].
    assert (Hstep : step s c = (s, false)).
    { destruct c; try discriminate Hc; simpl;
        unfold pause, resume, stop, worker_iteration; rewrite Hidle;
        reflexivity. }
    rewrite fires_cons.
    change (final s (c :: cs)) with (final (fst (step s c)) cs).
    rewrite Hstep. simpl. apply IH. exact Hcs.
Qed.

(** What the accumulated time is when the snippet has been triggered,
    for any arithmetic: in an episode with a positive threshold, as long
    as the flag is clear the accumulated time is below the threshold;
    once the flag is set the accumulated time has reached the threshold,
    it is one check interval more than a value that was still below the
    threshold, and no later call of the episode changes it. *)
Theorem accumulated_time_at_trigger (threshold : T) (cs later : list Call) :
  geb zero threshold = false ->
  forallb keeps_episode cs = true ->
  forallb keeps_episode later = true ->
  let s := final (init threshold) (Start :: cs) in
  if snippet_triggered s
  then reached s = true /\
       (exists below, cumulative_time s = add below check_interval /\
                      geb below threshold = false) /\
       cumulative_time (final s later) = cumulative_time s
  else reached s = false.
Proof.
  intros Hpos Hcs Hlater s.
  pose (K := fun u : t T =>
    threshold_seconds u = threshold /\ is_running u = true /\
    if snippet_triggered u
    then reached u = true /\
         exists below, cumulative_time u = add below check_interval /\
                       geb below threshold = false
    else reached u = false).
  assert (Hstep : forall u c, K u -> keeps_episode c = true ->
                              K (fst (step u c))).
  { intros [thr run pau cum trg] c [Hthr [Hrun Hk]] Hc.
    simpl in Hthr, Hrun. subst thr run. unfold reached in Hk. simpl in Hk.
    destruct c; try discriminate Hc; destruct pau, trg; simpl;
      unfold K, reached, start, pause, resume, worker_iteration; simpl;
      try (split; [reflexivity | split; [reflexivity | exact Hk]]).
    destruct (geb (add cum check_interval) threshold) eqn:E; simpl;
      (split; [reflexivity | split; [reflexivity|]]).
    - split; [exact E|]. exists cum. split; [reflexivity | exact Hk].
    - exact E. }
  assert (Hrun : forall cs u, K u -> forallb keeps_episode cs = true ->
                              K (final u cs)).
  { clear Hcs s cs. induction cs as [|c cs IH]; intros u Hu Hcs.
    - exact Hu.
    - simpl in Hcs. apply andb_prop in Hcs as [Hc Hcs].
      change (final u (c :: cs)) with (final (fst (step u c)) cs).
      apply IH; [apply Hstep; assumption | exact Hcs]. }
  assert (Hfrozen : forall cs u, K u -> snippet_triggered u = true ->
                      forallb keeps_episode cs = true ->
                      cumulative_time (final u cs) = cumulative_time u).
  { clear Hcs s cs. induction cs as [|c cs IH]; intros u Hu Ht Hcs.
    - reflexivity.
    - simpl in Hcs. apply andb_prop in Hcs as [Hc Hcs].
      change (final u (c :: cs)) with (final (fst (step u c)) cs).
      assert (Hsame : cumulative_time (fst (step u c)) = cumulative_time u /\
                      snippet_triggered (fst (step u c)) = true).
      { destruct u as [thr run pau cum trg]. simpl in Ht. subst trg.
        destruct Hu as [_ [Hr _]]. simpl in Hr. subst run.
        destruct c; try discriminate Hc; simpl;
          unfold start, pause, resume, worker_iteration; simpl;
          destruct pau; simpl; split; reflexivity. }
      destruct Hsame as [Hcum Htrg].
      rewrite (IH _ (Hstep u c Hu Hc) Htrg Hcs). exact Hcum. }
  assert (Hs : K s).
  { apply (Hrun cs (start (init threshold))).
    - unfold K, reached. simpl. repeat split. exact Hpos.
    - exact Hcs. }
  pose proof Hs as [_ [_ Hk]].
  destruct (snippet_triggered s) eqn:Ht; [|exact Hk].
  destruct Hk as [Hreach Hbelow]. repeat split; try assumption.
  apply Hfrozen; assumption.
Qed.

End SnippetTrackerMore.

Section SnippetTrackerMoreRuns.

Import SnippetTracker.

Lemma pause_resume_round_trip_witness :
  let s := fst (step (start (init 8%Q)) Tick) in
  resume (final (pause s) (repeat Tick 5)) = s.
Proof.
  intros s. apply (pause_resume_round_trip s 5).
  - reflexivity.
  - reflexivity.
Defined.

Lemma idle_tracker_ignores_calls_witness :
  final (init 8%Q) [Tick; Pause; Tick; Resume; Stop; Tick] = init 8%Q /\
  fires (init 8%Q) [Tick; Pause; Tick; Resume; Stop; Tick] = 0%nat.
Proof.
  apply (idle_tracker_ignores_calls (init 8%Q)).
  - reflexivity.
  - reflexivity.
Defined.

Lemma accumulated_time_at_trigger_witness :
  let s := final (init Binary64.eight) (Start :: repeat Tick 100) in
  if snippet_triggered s
  then reached s = true /\
       (exists below, cumulative_time s = add below check_interval /\
                      geb below Binary64.eight = false) /\
       cumulative_time (final s [Tick; Pause; Resume; Tick]) =
       cumulative_time s
  else reached s = false.
Proof.
  apply (accumulated_time_at_trigger Binary64.eight (repeat Tick 100)
           [Tick; Pause; Resume; Tick]).
  - reflexivity.
  - reflexivity.
  - reflexivity.
Defined.

End SnippetTrackerMoreRuns.

(* ================================================================== *)
(** * Further properties of the speech-to-text service *)

Section STTMore.

Import STT.

(** Every result of [_transcribe_full_internal] carries the job id of the
    request; it is either a success with a transcript and no error, or a
    failure with an error code and a hint and no transcript; and the model
    is called with the request's audio, once, if the service is ready and
    the audio is not empty, and not at all otherwise.  An exception of the
    model becomes a failure result. *)
Theorem full_result_is_well_formed (self : t) (audio_data : Audio)
  (job : string) :
  let r := fst (_transcribe_full_internal self audio_data job) in
  job_id r = job /\
  (if success r
   then (exists text, transcript r = Some text) /\
        error_code r = None /\ error_hint r = None
   else transcript r = None /\
        (exists code, error_code r = Some code) /\
        (exists hint, error_hint r = Some hint)) /\
  snd (_transcribe_full_internal self audio_data job) =
    model_calls_for self audio_data.
Proof.
  unfold _transcribe_full_internal, model_calls_for.
  destruct (not_ready self) eqn:Hn.
  - simpl. destruct audio_data as [[|x xs]|]; repeat split; eauto.
  - destruct audio_data as [[|x xs]|]; simpl; try (repeat split; eauto; fail).
    destruct (model self) as [m|] eqn:Hm.
    + match goal with |- context [transcribe m ?a] =>
        destruct (transcribe m a) end; simpl; repeat split; eauto.
    + unfold not_ready in Hn. rewrite Hm, orb_true_r in Hn. discriminate Hn.
Qed.

(** The same for a snippet: a success carries a transcript and a quality
    label and no hint, a failure carries a hint only, and the model is
    called under the same condition. *)
Theorem snippet_result_is_well_formed (self : t) (audio_data : Audio) :
  let r := fst (_transcribe_snippet_internal self audio_data) in
  (if s_success r
   then (exists text, s_transcript r = Some text) /\
        (exists label, s_quality r = Some label) /\
        s_error_hint r = None
   else s_transcript r = None /\ s_quality r = None /\
        (exists hint, s_error_hint r = Some hint)) /\
  snd (_transcribe_snippet_internal self audio_data) =
    model_calls_for self audio_data.
Proof.
  unfold _transcribe_snippet_internal, model_calls_for.
  destruct (not_ready self) eqn:Hn.
  - simpl. destruct audio_data as [[|x xs]|]; repeat split; eauto.
  - destruct audio_data as [[|x xs]|]; simpl; try (repeat split; eauto; fail).
    destruct (model self) as [m|] eqn:Hm.
    + match goal with |- context [transcribe m ?a] =>
        destruct (transcribe m a) end; simpl; repeat split; eauto.
    + unfold not_ready in Hn. rewrite Hm, orb_true_r in Hn. discriminate Hn.
Qed.

Lemma load_leaves_not_ready (w : STTLoad.Whisper) :
  not_ready (snd (fst (STTLoad._load_and_warmup w STTLoad.fresh))) =
  negb (STTLoad.success (fst (fst (STTLoad._load_and_warmup w STTLoad.fresh)))).
Proof.
  destruct w as [|ty|m]; simpl; try reflexivity.
  destruct (transcribe m STTLoad.silence); reflexivity.
Qed.

(** Loading reports what it leaves behind: after [_load_and_warmup] on
    a new service the service is ready exactly when the result says
    success, a failure comes with a hint, and the only audio the model can
    have seen is the second of silence of the warmup. *)
Theorem load_result_matches_readiness (w : STTLoad.Whisper) :
  let r := fst (fst (STTLoad._load_and_warmup w STTLoad.fresh)) in
  let after := snd (fst (STTLoad._load_and_warmup w STTLoad.fresh)) in
  let calls := snd (STTLoad._load_and_warmup w STTLoad.fresh) in
  is_ready after = STTLoad.success r /\
  not_ready after = negb (STTLoad.success r) /\
  (if STTLoad.success r then STTLoad.error_hint r = None
   else exists hint, STTLoad.error_hint r = Some hint) /\
  (calls = [] \/ calls = [STTLoad.silence]).
Proof.
  destruct w as [|ty|m]; simpl.
  - repeat split; eauto.
  - repeat split; eauto.
  - destruct (transcribe m STTLoad.silence); simpl; repeat split; eauto.
Qed.

(** A service whose loading failed rejects every transcription request,
    also when the model object exists because only the warmup failed: both
    paths answer "STT nicht bereit" and the model is not called. *)
Theorem failed_load_blocks_transcription (w : STTLoad.Whisper)
  (audio_data : Audio) (job : string) :
  STTLoad.success (fst (fst (STTLoad._load_and_warmup w STTLoad.fresh)))
    = false ->
  let after := snd (fst (STTLoad._load_and_warmup w STTLoad.fresh)) in
  target (transcribe_full after audio_data job) after =
    (FullResult false None (Some "STT_NOT_READY") (Some "STT nicht bereit")
                job, []) /\
  target (transcribe_snippet after audio_data) after =
    (SnippetResult false None None (Some "STT nicht bereit"), []).
Proof.
  intros Hfail after.
  assert (Hn : not_ready after = true).
  { unfold after. rewrite load_leaves_not_ready, Hfail. reflexivity. }
  split.
  - unfold transcribe_full. rewrite Hn. reflexivity.
  - simpl. apply snippet_internal_not_ready. exact Hn.
Qed.

End STTMore.

Section STTMoreRuns.

Import STT.

(** A loaded service hands the whole audio of a request to the model. *)
Example loaded_service_transcribes :
  _transcribe_full_internal (loaded echo) (Some [1%Q; 2%Q; 3%Q]) "job-3" =
  (FullResult true (Some "guten Tag") None None "job-3",
   [[1%Q; 2%Q; 3%Q]]).
Proof. reflexivity. Qed.

Lemma failed_load_blocks_transcription_witness :
  let cold := {| transcribe := fun _ => Raises "RuntimeError" "no backend" |} in
  let after :=
    snd (fst (STTLoad._load_and_warmup (STTLoad.Constructed cold)
                                       STTLoad.fresh)) in
  model after = Some cold /\
  target (transcribe_full after (Some [1%Q]) "job-1") after =
    (FullResult false None (Some "STT_NOT_READY") (Some "STT nicht bereit")
                "job-1", []) /\
  target (transcribe_snippet after (Some [1%Q])) after =
    (SnippetResult false None None (Some "STT nicht bereit"), []).
Proof.
  intros cold after. split; [reflexivity|].
  apply (failed_load_blocks_transcription (STTLoad.Constructed cold)).
  reflexivity.
Defined.

End STTMoreRuns.

(* ================================================================== *)
(** * Properties of the snippet round trip *)

Section TrackerSnippetFacts.

Import TrackerSnippet.

Lemma handled_message_shape (tid : Z) (s : STT.t) (a : STT.Audio) :
  let m := handle_stt_result tid
             (fst (STT._transcribe_snippet_internal s a)) in
  thread_id m = tid /\
  ((error_hint m = None /\
    (exists text, transcript m = Some text) /\
    (exists label, quality m = Some label)) \/
   (transcript m = Some "" /\ quality m = Some error_quality /\
    exists hint, error_hint m = Some hint)).
Proof.
  unfold STT._transcribe_snippet_internal, handle_stt_result.
  destruct (STT.not_ready s); simpl; [split; [reflexivity|right]; eauto|].
  destruct a as [[|x xs]|]; simpl;
    try (split; [reflexivity|right]; eauto; fail).
  destruct (STT.model s) as [mdl|]; simpl;
    [|split; [reflexivity|right]; eauto].
  match goal with |- context [STT.transcribe mdl ?a] =>
    destruct (STT.transcribe mdl a) end; simpl;
    (split; [reflexivity|]); [left | right]; eauto.
Qed.

(** A trigger calls the snippet callback once, except that it calls
    nothing when the generator of the synthetic audio raises (service
    ready, nothing from the recorder, a threshold that gives a negative
    number of samples).  Every message carries the id of the tracker's
    worker and is of one of two kinds: a transcript with a quality label
    and no error, or an empty transcript with the error label and an
    error hint.  This holds whether the service is missing, not ready,
    fails or succeeds. *)
Theorem snippet_message_is_well_formed (service : option STT.t)
  (at_worker : STT.t) (threshold_seconds : Q) (getter : AudioGetter)
  (fake_audio : Z -> list Q) (tid : Z) :
  let messages := fst (snippet_round service at_worker threshold_seconds
                                     getter fake_audio tid) in
  List.length messages =
    (if generator_raises service threshold_seconds getter
     then 0 else 1)%nat /\
  forall m, In m messages ->
    thread_id m = tid /\
    ((error_hint m = None /\
      (exists text, transcript m = Some text) /\
      (exists label, quality m = Some label)) \/
     (transcript m = Some "" /\ quality m = Some error_quality /\
      exists hint, error_hint m = Some hint)).
Proof.
  unfold snippet_round, _transcribe_snippet, generator_raises,
    _generate_fake_audio.
  destruct service as [s|]; simpl.
  - destruct (STT.is_ready s); simpl.
    + destruct getter as [| |[[|x xs]|]]; simpl;
        try (destruct (Recording.py_int (threshold_seconds * inject_Z 16000)
                       <? 0)%Z; simpl);
        (split; [reflexivity|]); intros m Hm; simpl in Hm;
        first [ contradiction
              | destruct Hm as [<- | []];
                exact (handled_message_shape tid at_worker _) ].
    + split; [reflexivity|]. intros m [<- | []].
      split; [reflexivity | right]; simpl; eauto.
  - split; [reflexivity|]. intros m [<- | []].
    split; [reflexivity | right]; simpl; eauto.
Qed.

Lemma snippet_calls (s : STT.t) (a : STT.Audio) :
  snd (STT._transcribe_snippet_internal s a) = model_calls_for s a.
Proof.
  unfold STT._transcribe_snippet_internal, model_calls_for.
  destruct (STT.not_ready s) eqn:Hn.
  - destruct a as [[|x xs]|]; reflexivity.
  - destruct a as [[|x xs]|]; simpl; try reflexivity.
    destruct (STT.model s) as [mdl|] eqn:Hm.
    + match goal with |- context [STT.transcribe mdl ?a] =>
        destruct (STT.transcribe mdl a) end; reflexivity.
    + unfold STT.not_ready in Hn. rewrite Hm, orb_true_r in Hn.
      discriminate Hn.
Qed.

(** The audio the model gets for a snippet: what the recorder handed
    over if that is not empty, otherwise the synthetic audio of
    [int(threshold_seconds * 16000)] samples; the model gets it under the
    condition of every transcription request, judged when the worker
    runs; and it gets nothing when the generator raises. *)
Theorem snippet_audio_is_recorded_or_synthetic (s at_worker : STT.t)
  (threshold_seconds : Q) (getter : AudioGetter)
  (fake_audio : Z -> list Q) (tid : Z) :
  STT.is_ready s = true ->
  snd (snippet_round (Some s) at_worker threshold_seconds getter
                     fake_audio tid) =
  match getter with
  | GetterReturns (Some (x :: xs)) =>
      model_calls_for at_worker (Some (x :: xs))
  | _ =>
      match _generate_fake_audio
              fake_audio
              (Recording.py_int (threshold_seconds * inject_Z 16000)) with
      | Some audio_data => model_calls_for at_worker (Some audio_data)
      | None => []
      end
  end.
Proof.
  intros Hready. unfold snippet_round, _transcribe_snippet.
  rewrite Hready. cbv beta iota zeta. simpl negb. cbv iota.
  destruct getter as [| |[[|x xs]|]]; simpl;
    try (destruct (_generate_fake_audio fake_audio _); simpl);
    try reflexivity; apply snippet_calls.
Qed.

Lemma snippet_audio_is_recorded_or_synthetic_witness :
  snd (snippet_round (Some (STT.loaded STT.echo)) (STT.loaded STT.echo)
                     8%Q (GetterReturns (Some []))
                     (fun n => repeat 0%Q (Z.to_nat n)) 42%Z) =
  model_calls_for (STT.loaded STT.echo)
                  (Some (repeat 0%Q (Z.to_nat (Recording.py_int
                                                 (8 * inject_Z 16000))))).
Proof.
  apply (snippet_audio_is_recorded_or_synthetic
           (STT.loaded STT.echo) (STT.loaded STT.echo) 8%Q
           (GetterReturns (Some []))).
  reflexivity.
Defined.

(** With a negative threshold and no recorded audio the generator
    raises: no message and no model call. *)
Example negative_threshold_sends_nothing :
  snippet_round (Some (STT.loaded STT.echo)) (STT.loaded STT.echo)
                (- (1 # 2))%Q NoGetter (fun n => repeat 0%Q (Z.to_nat n))
                42%Z = ([], []).
Proof. reflexivity. Qed.

End TrackerSnippetFacts.

(* ================================================================== *)
(** * Further properties of the recording buffer *)

Section RecordingMore.

Import Recording.

Open Scope Z_scope.

Lemma get_snippet_cases (self : t) (seconds : Q) :
  let buf := List.concat (_chunks self) in
  let n := requested self seconds in
  fst (get_snippet self seconds) =
  if Z.of_nat (List.length buf) <=? n then buf else slice_from (- n) buf.
Proof.
  unfold get_snippet. destruct (_chunks self) as [|c cs] eqn:E.
  - simpl. destruct (0 <=? requested self seconds); [reflexivity|].
    unfold slice_from. rewrite skipn_nil. reflexivity.
  - cbv zeta.
    destruct (Z.of_nat (List.length (List.concat (c :: cs)))
              <=? requested self seconds); reflexivity.
Qed.

(** Whatever number of seconds is asked for, also zero or a negative
    one, the snippet is a tail of the full recording: [get_full] is some
    samples followed by exactly the snippet. *)
Theorem snippet_is_tail_of_recording (self : t) (seconds : Q) :
  exists dropped : list Sample,
    fst (get_full self) = (dropped ++ fst (get_snippet self seconds))%list.
Proof.
  rewrite get_full_is_concat, get_snippet_cases. simpl fst.
  destruct (Z.of_nat (List.length (List.concat (_chunks self)))
            <=? requested self seconds).
  - exists []. reflexivity.
  - unfold slice_from.
    match goal with |- context [skipn ?k ?l] =>
      exists (firstn k l); symmetry; apply firstn_skipn end.
Qed.

(** The number of samples in a snippet, for every request: with [n] the
    number of samples asked for and [len] the number recorded, it is
    [min n len] for a positive [n] and [max 0 (len + n)] otherwise, which
    is all of the recording for [n = 0]. *)
Theorem snippet_length (self : t) (seconds : Q) :
  let len := Z.of_nat (List.length (List.concat (_chunks self))) in
  let n := requested self seconds in
  Z.of_nat (List.length (fst (get_snippet self seconds))) =
  if 0 <? n then Z.min n len else Z.max 0 (len + n).
Proof.
  intros len n. rewrite get_snippet_cases. fold len n.
  destruct (len <=? n) eqn:L.
  - apply Z.leb_le in L. fold len.
    destruct (0 <? n) eqn:P; [lia|]. apply Z.ltb_ge in P. lia.
  - apply Z.leb_gt in L. unfold slice_from. fold len.
    rewrite length_skipn.
    destruct (- n <? 0) eqn:N.
    + apply Z.ltb_lt in N.
      destruct (0 <? n) eqn:P; [|apply Z.ltb_ge in P; lia].
      unfold len in *. lia.
    + apply Z.ltb_ge in N.
      destruct (0 <? n) eqn:P; [apply Z.ltb_lt in P; lia|].
      unfold len in *. lia.
Qed.

(** The capture callback only appends: after any number of blocks the
    full recording is what it was before, followed by the blocks in the
    order they arrived. *)
Theorem callbacks_append_in_order (self : t) (blocks : list (list Sample)) :
  fst (get_full (fold_left _callback blocks self)) =
  (fst (get_full self) ++ List.concat blocks)%list.
Proof.
  revert self. induction blocks as [|b blocks IH]; intros self.
  - simpl. rewrite app_nil_r. reflexivity.
  - simpl fold_left. rewrite IH, !get_full_is_concat. simpl.
    rewrite concat_app. simpl. rewrite app_nil_r, app_assoc. reflexivity.
Qed.

End RecordingMore.

(* ================================================================== *)
(** * Properties of the microphone check *)

Section AudioCaptureFacts.

Import AudioCapture.

Variable h : Host.

Lemma test_stream_works (device : option nat) :
  fst (_test_device_stream h device) = works h device.
Proof.
  unfold _test_device_stream, works.
  destruct (open_stream h device); reflexivity.
Qed.

Lemma truthy_nonempty (s : string) : truthy s = true -> s <> "".
Proof.
  unfold truthy. intros H ->. discriminate H.
Qed.

(** The shape of what the test loop returns. *)
Lemma test_devices_shape (tests : list Candidate) (last_error : option string) :
  let r := fst (test_devices h tests last_error) in
  if fst (fst r)
  then snd (fst r) = None /\ exists device, snd r = Some device
  else (exists hint, snd (fst r) = Some hint /\ hint <> "") /\ snd r = None.
Proof.
  revert last_error. induction tests as [|[id info] tests IH]; intros last.
  - simpl. split; [|reflexivity].
    destruct last as [e|]; [destruct (truthy e) eqn:E|]; eexists;
      (split; [reflexivity|]); try discriminate.
    apply truthy_nonempty. exact E.
  - simpl. destruct (_test_device_stream h id) as [[|] error]; simpl.
    + split; eauto.
    + specialize (IH error).
      destruct (test_devices h tests error) as [r tested]. exact IH.
Qed.

(** The test loop opens streams in the order of the list and stops at the
    first that works. *)
Lemma test_devices_trace (tests : list Candidate) (last_error : option string) :
  let r := fst (test_devices h tests last_error) in
  let tested := snd (test_devices h tests last_error) in
  if fst (fst r)
  then exists before id rest,
         map fst tests = (before ++ id :: rest)%list /\
         tested = (before ++ [id])%list /\
         forallb (fun d => negb (works h d)) before = true /\
         works h id = true
  else tested = map fst tests /\
       forallb (fun d => negb (works h d)) tested = true.
Proof.
  revert last_error. induction tests as [|[id info] tests IH]; intros last.
  - simpl. split; reflexivity.
  - simpl. pose proof (test_stream_works id) as Hw.
    destruct (_test_device_stream h id) as [[|] error]; simpl in *.
    + exists [], id, (map fst tests). repeat split. symmetry. exact Hw.
    + specialize (IH error).
      destruct (test_devices h tests error) as [r tested]. simpl in *.
      destruct (fst (fst r)).
      * destruct IH as [before [x [rest [Hm [Ht [Hb Hx]]]]]].
        exists (id :: before), x, rest. simpl. rewrite Hm, Ht, <- Hw, Hb.
        repeat split. exact Hx.
      * destruct IH as [Ht Hb]. rewrite Ht in *. simpl.
        rewrite <- Hw, Hb. split; reflexivity.
Qed.

Lemma NoDup_snoc {A} (l : list A) (x : A) :
  NoDup l -> ~ In x l -> NoDup (l ++ [x]).
Proof.
  induction l as [|a l IH]; simpl; intros Hl Hx.
  - constructor; [intros [] | constructor].
  - inversion Hl; subst. constructor.
    + rewrite in_app_iff. simpl. intros [H | [H | []]]; [contradiction|].
      apply Hx. left. symmetry. exact H.
    + apply IH; [assumption|]. intros Hc. apply Hx. right. exact Hc.
Qed.

Lemma listed_in (idx : nat) (tests : list Candidate) :
  listed idx tests = true <-> In (Some idx) (map fst tests).
Proof.
  unfold listed. rewrite existsb_exists. split.
  - intros [[[i|] d] [Hin Heq]]; simpl in Heq; [|discriminate].
    apply Nat.eqb_eq in Heq. subst i.
    apply (in_map fst) in Hin. exact Hin.
  - intros Hin. apply in_map_iff in Hin as [[id d] [Hid Hin]].
    simpl in Hid. subst id. exists (Some idx, d). split; [exact Hin|].
    simpl. apply Nat.eqb_refl.
Qed.

(** The candidates after the third step, from any list built so far. *)
Lemma add_inputs_spec (inputs : list (nat * Device)) (acc : list Candidate) :
  let result :=
    fold_left
      (fun tests p =>
         if listed (fst p) tests then tests
         else (tests ++ [(Some (fst p), Some (snd p))])%list)
      inputs acc in
  (exists added, result = (acc ++ added)%list) /\
  (forall id, In id (map fst result) <->
              In id (map fst acc) \/
              exists i, id = Some i /\ In i (map fst inputs)) /\
  (NoDup (map fst acc) -> NoDup (map fst result)).
Proof.
  revert acc. induction inputs as [|[i d] inputs IH]; intros acc; simpl.
  - split; [exists []; now rewrite app_nil_r|].
    split; [|tauto].
    intros id. split; [tauto|]. intros [H | [x [_ []]]]. exact H.
  - destruct (listed i acc) eqn:L.
    + destruct (IH acc) as [Hext [Hin Hnd]].
      split; [exact Hext|]. split; [|exact Hnd].
      intros id. rewrite Hin. split.
      * intros [H | [x [-> Hx]]]; [left; exact H|].
        right. exists x. split; [reflexivity | right; exact Hx].
      * intros [H | [x [-> [<- | Hx]]]]; [left; exact H | |].
        -- left. apply listed_in. exact L.
        -- right. exists x. split; [reflexivity | exact Hx].
    + destruct (IH (acc ++ [(Some i, Some d)])%list) as [[added ->] [Hin Hnd]].
      split; [exists ((Some i, Some d) :: added); now rewrite <- app_assoc|].
      split.
      * intros id. rewrite Hin, map_app, in_app_iff. simpl. split.
        -- intros [[H | [<- | []]] | [x [-> Hx]]].
           ++ left. exact H.
           ++ right. exists i. split; [reflexivity | left; reflexivity].
           ++ right. exists x. split; [reflexivity | right; exact Hx].
        -- intros [H | [x [-> [<- | Hx]]]].
           ++ left. left. exact H.
           ++ left. right. left. reflexivity.
           ++ right. exists x. split; [reflexivity | exact Hx].
      * intros Hacc. apply Hnd. rewrite map_app. simpl.
        apply NoDup_snoc; [exact Hacc|].
        intros Hc. apply listed_in in Hc. rewrite Hc in L. discriminate L.
Qed.

Lemma check_microphone_tests (device_preference : string)
  (ds : list Device) :
  sounddevice_installed h = true ->
  query_devices h = Devices ds ->
  input_devices ds <> [] ->
  check_microphone h device_preference =
  test_devices h (devices_to_test h device_preference (input_devices ds)) None.
Proof.
  intros Hi Hq Hne. unfold check_microphone. rewrite Hi, Hq. simpl.
  destruct ds as [|d ds]; [exfalso; apply Hne; reflexivity|].
  destruct (input_devices (d :: ds)) as [|p inputs];
    [exfalso; apply Hne; reflexivity | reflexivity].
Qed.

Lemma preferred_is_input (device_preference : string)
  (inputs : list (nat * Device)) (id : option nat) :
  In id (map fst (preferred h device_preference inputs)) ->
  exists i, id = Some i /\ In i (map fst inputs).
Proof.
  unfold preferred. destruct (truthy device_preference); [|intros []].
  destruct (find _ inputs) as [[idx d]|] eqn:F; [|intros []].
  simpl. intros [<- | []]. exists idx. split; [reflexivity|].
  apply find_some in F as [Hin _]. apply (in_map fst) in Hin. exact Hin.
Qed.

Lemma check_microphone_shape (device_preference : string) :
  let r := fst (check_microphone h device_preference) in
  if fst (fst r)
  then snd (fst r) = None /\ exists device, snd r = Some device
  else (exists hint, snd (fst r) = Some hint /\ hint <> "") /\ snd r = None.
Proof.
  unfold check_microphone.
  destruct (sounddevice_installed h); simpl;
    [|split; [eexists; split; [reflexivity | discriminate] | reflexivity]].
  destruct (query_devices h) as [ty|[|d ds]]; simpl;
    try (split; [eexists; split; [reflexivity | discriminate] | reflexivity]).
  destruct (input_devices (d :: ds)) as [|p inputs]; simpl;
    [split; [eexists; split; [reflexivity | discriminate] | reflexivity]|].
  apply test_devices_shape.
Qed.

(** The result of [check_microphone] has one of two shapes: success with
    no hint and a device identifier to save, or failure with a hint that
    is never empty and no device. *)
Theorem check_microphone_result_shape (device_preference : string) :
  let r := fst (check_microphone h device_preference) in
  if fst (fst r)
  then snd (fst r) = None /\ exists device, snd r = Some device
  else (exists hint, snd (fst r) = Some hint /\ hint <> "") /\ snd r = None.
Proof. exact (check_microphone_shape device_preference). Qed.

(** The check succeeds exactly when the sound library is there, the
    machine has an input device, and a test stream opens on the default
    device or on one of the input devices. *)
Theorem check_microphone_succeeds_iff (device_preference : string) :
  fst (fst (fst (check_microphone h device_preference))) = true <->
  sounddevice_installed h = true /\
  exists ds, query_devices h = Devices ds /\
             input_devices ds <> [] /\
             (works h None = true \/
              exists i, In i (map fst (input_devices ds)) /\
                        works h (Some i) = true).
Proof.
  split.
  - intros Hok.
    destruct (sounddevice_installed h) eqn:Hi;
      [|unfold check_microphone in Hok; rewrite Hi in Hok; discriminate Hok].
    split; [reflexivity|].
    destruct (query_devices h) as [ty|ds] eqn:Hq;
      [unfold check_microphone in Hok; rewrite Hi, Hq in Hok;
       discriminate Hok|].
    exists ds. split; [reflexivity|].
    assert (Hne : input_devices ds <> []).
    { intros He. unfold check_microphone in Hok. rewrite Hi, Hq in Hok.
      simpl in Hok. destruct ds; [discriminate Hok|].
      rewrite He in Hok. discriminate Hok. }
    split; [exact Hne|].
    rewrite (check_microphone_tests _ ds Hi Hq Hne) in Hok.
    pose proof (test_devices_trace
                  (devices_to_test h device_preference (input_devices ds))
                  None) as Ht.
    cbv zeta in Ht. rewrite Hok in Ht.
    destruct Ht as [before [id [rest [Hm [_ [_ Hw]]]]]].
    assert (Hin : In id (map fst (devices_to_test h device_preference
                                                  (input_devices ds)))).
    { rewrite Hm. apply in_or_app. right. left. reflexivity. }
    apply (proj1 (proj2 (add_inputs_spec (input_devices ds) _))) in Hin.
    destruct Hin as [Hin | [i [-> Hi']]].
    + rewrite map_app, in_app_iff in Hin. destruct Hin as [Hin | [<- | []]].
      * apply preferred_is_input in Hin as [i [-> Hi']].
        right. exists i. split; assumption.
      * left. exact Hw.
    + right. exists i. split; assumption.
  - intros [Hi [ds [Hq [Hne Hw]]]].
    rewrite (check_microphone_tests _ ds Hi Hq Hne).
    pose proof (test_devices_trace
                  (devices_to_test h device_preference (input_devices ds))
                  None) as Ht.
    cbv zeta in Ht.
    destruct (fst (fst (fst (test_devices h
                (devices_to_test h device_preference (input_devices ds))
                None)))); [reflexivity|].
    exfalso. destruct Ht as [Htested Hall]. rewrite Htested in Hall.
    rewrite forallb_forall in Hall.
    assert (Hex : exists id,
              In id (map fst (devices_to_test h device_preference
                                              (input_devices ds))) /\
              works h id = true).
    { destruct Hw as [Hw | [i [Hin Hw]]].
      - exists None. split; [|exact Hw].
        apply (proj1 (proj2 (add_inputs_spec (input_devices ds) _))).
        left. rewrite map_app, in_app_iff. right. left. reflexivity.
      - exists (Some i). split; [|exact Hw].
        apply (proj1 (proj2 (add_inputs_spec (input_devices ds) _))).
        right. exists i. split; [reflexivity | exact Hin]. }
    destruct Hex as [id [Hin Hid]].
    specialize (Hall id Hin). rewrite Hid in Hall. discriminate Hall.
Qed.

Lemma listed_app (idx : nat) (tests more : list Candidate) :
  listed idx (tests ++ more) = listed idx tests || listed idx more.
Proof. unfold listed. apply existsb_app. Qed.

(** The third step adds exactly the inputs that are not yet listed, in
    the order of the inputs. *)
Lemma add_inputs_order (inputs : list (nat * Device)) (acc : list Candidate) :
  NoDup (map fst inputs) ->
  map fst
    (fold_left
       (fun tests p =>
          if listed (fst p) tests then tests
          else (tests ++ [(Some (fst p), Some (snd p))])%list)
       inputs acc) =
  (map fst acc ++
   map Some (filter (fun i => negb (listed i acc)) (map fst inputs)))%list.
Proof.
  revert acc. induction inputs as [|[i d] inputs IH]; intros acc Hnd; simpl.
  - now rewrite app_nil_r.
  - inversion Hnd as [|? ? Hi Hrest]; subst.
    destruct (listed i acc) eqn:L; simpl.
    + apply IH. exact Hrest.
    + rewrite (IH _ Hrest), map_app, <- app_assoc. simpl.
      do 3 f_equal. apply filter_ext_in. intros j Hj.
      rewrite listed_app. unfold listed at 2. simpl.
      destruct (Nat.eqb i j) eqn:E; [|now rewrite !orb_false_r].
      apply Nat.eqb_eq in E. subst j. contradiction.
Qed.

Lemma filtered_indices_NoDup {A} (p : nat * A -> bool) (l : list (nat * A)) :
  NoDup (map fst l) -> NoDup (map fst (filter p l)).
Proof.
  induction l as [|[i a] l IH]; simpl; intros Hnd; [constructor|].
  inversion Hnd as [|? ? Hi Hrest]; subst.
  destruct (p (i, a)); simpl; [|apply IH; exact Hrest].
  constructor; [|apply IH; exact Hrest].
  intros Hin. apply Hi. apply in_map_iff in Hin as [[j b] [Hj Hin]].
  simpl in Hj. subst j. apply filter_In in Hin as [Hin _].
  apply (in_map fst) in Hin. exact Hin.
Qed.

Lemma enumerate_indices {A} (l : list A) (k : nat) :
  map fst (combine (seq k (List.length l)) l) = seq k (List.length l).
Proof.
  revert k. induction l as [|a l IH]; intros k; simpl; [reflexivity|].
  now rewrite IH.
Qed.

Lemma input_devices_NoDup (ds : list Device) :
  NoDup (map fst (input_devices ds)).
Proof.
  unfold input_devices, enumerate. apply filtered_indices_NoDup.
  rewrite enumerate_indices. apply seq_NoDup.
Qed.

(** The order of the tests: the device matching the configured
    preference, if there is one, then the default device, then the other
    input devices in the order of the device list; no device is tested
    twice; the devices before the one that is returned all failed, and
    after a device that works no further stream is opened. *)
Theorem devices_tested_in_priority_order (device_preference : string)
  (ds : list Device) :
  sounddevice_installed h = true ->
  query_devices h = Devices ds ->
  input_devices ds <> [] ->
  let inputs := input_devices ds in
  let first := preferred h device_preference inputs in
  let order := map fst (devices_to_test h device_preference inputs) in
  let r := fst (check_microphone h device_preference) in
  let tested := snd (check_microphone h device_preference) in
  NoDup order /\
  order = (map fst first ++
           None :: map Some (filter (fun i => negb (listed i first))
                                    (map fst inputs)))%list /\
  (if fst (fst r)
   then exists before id rest,
          order = (before ++ id :: rest)%list /\
          tested = (before ++ [id])%list /\
          forallb (fun d => negb (works h d)) before = true /\
          works h id = true
   else tested = order /\
        forallb (fun d => negb (works h d)) tested = true).
Proof.
  intros Hi Hq Hne inputs first order r tested.
  destruct (add_inputs_spec inputs (first ++ [(None, None)])%list)
    as [_ [_ Hnd]].
  split; [|split].
  - apply Hnd. rewrite map_app. simpl.
    unfold first, preferred. destruct (truthy device_preference);
      [|repeat constructor; intros []].
    destruct (find _ inputs) as [[idx d]|]; simpl.
    + constructor; [intros [H | []]; discriminate H|].
      repeat constructor; intros [].
    + repeat constructor; intros [].
  - unfold order, devices_to_test. fold first.
    rewrite (add_inputs_order inputs _ (input_devices_NoDup ds)).
    rewrite map_app, <- app_assoc. simpl. do 3 f_equal.
    apply filter_ext. intros i. rewrite listed_app. unfold listed at 2.
    simpl. now rewrite orb_false_r.
  - unfold r, tested. rewrite (check_microphone_tests _ ds Hi Hq Hne).
    apply test_devices_trace.
Qed.

Lemma find_enumerated {A} (p : nat * A -> bool) (l : list A) (k i : nat)
  (d : A) :
  find p (combine (seq k (List.length l)) l) = Some (i, d) ->
  (k <= i)%nat /\ nth_error l (i - k) = Some d /\ p (i, d) = true /\
  forall j d', (k <= j < i)%nat -> nth_error l (j - k) = Some d' ->
               p (j, d') = false.
Proof.
  revert k. induction l as [|a l IH]; intros k; simpl; [discriminate|].
  destruct (p (k, a)) eqn:P.
  - intros [= <- <-]. rewrite Nat.sub_diag. repeat split; auto. lia.
  - intros F. destruct (IH (S k) F) as [Hk [Hn [Hp Hfirst]]].
    split; [lia|]. split; [|split; [exact Hp|]].
    + replace (i - k)%nat with (S (i - S k)) by lia. exact Hn.
    + intros j d' Hj Hd'. destruct (Nat.eq_dec j k) as [-> | Hneq].
      * rewrite Nat.sub_diag in Hd'. simpl in Hd'. injection Hd' as <-.
        exact P.
      * apply Hfirst; [lia|].
        replace (j - k)%nat with (S (j - S k)) in Hd' by lia. exact Hd'.
Qed.

(** [get_device_index] returns the position of the first input device
    whose name contains the configured name, with surrounding blanks
    removed and letter case ignored; it returns [None], the default
    device, in every other case and never fails. *)
Theorem get_device_index_is_first_match (config_device : string) :
  match get_device_index h config_device with
  | Some i =>
      exists ds d,
        query_devices h = Devices ds /\
        nth_error ds i = Some d /\
        is_input d = true /\
        contains (lower h (strip h config_device))
                 (lower h (name_or "" d)) = true /\
        forall j d', (j < i)%nat -> nth_error ds j = Some d' ->
                     is_input d' &&
                     contains (lower h (strip h config_device))
                              (lower h (name_or "" d')) = false
  | None => True
  end.
Proof.
  unfold get_device_index.
  destruct (negb (truthy config_device) ||
            negb (truthy (strip h config_device))); [exact I|].
  destruct (negb (sounddevice_installed h)); [exact I|].
  destruct (query_devices h) as [ty|ds]; [exact I|].
  unfold enumerate.
  destruct (find _ (combine (seq 0 (List.length ds)) ds)) as [[i d]|] eqn:F;
    simpl; [|exact I].
  apply find_enumerated in F as [_ [Hn [Hp Hfirst]]].
  rewrite Nat.sub_0_r in Hn. simpl in Hp. apply andb_prop in Hp as [Hin Hc].
  exists ds, d. repeat split; try assumption.
  intros j d' Hj Hd'. apply (Hfirst j d'); [lia|].
  rewrite Nat.sub_0_r. exact Hd'.
Qed.

End AudioCaptureFacts.

Section AudioCaptureRuns.

Import AudioCapture.

(** The preferred microphone and the default device are busy, the
    headset works: three streams are opened, in this order. *)
Example studio_falls_back_to_headset :
  check_microphone studio "Webcam" =
  ((true, None, Some "USB Headset"), [Some 1%nat; None; Some 2%nat]).
Proof. reflexivity. Qed.

(** Errors without text give the fallback hint. *)
Example muted_has_fallback_hint :
  check_microphone muted "" =
  ((false, Some "No working microphone device found", None),
   [None; Some 1%nat; Some 2%nat]).
Proof. reflexivity. Qed.

Lemma devices_tested_in_priority_order_witness :
  let inputs := input_devices
                  match query_devices studio with
                  | Devices ds => ds
                  | QueryRaises _ => []
                  end in
  let first := preferred studio "Webcam" inputs in
  let order := map fst (devices_to_test studio "Webcam" inputs) in
  let r := fst (check_microphone studio "Webcam") in
  let tested := snd (check_microphone studio "Webcam") in
  NoDup order /\
  order = (map fst first ++
           None :: map Some (filter (fun i => negb (listed i first))
                                    (map fst inputs)))%list /\
  (if fst (fst r)
   then exists before id rest,
          order = (before ++ id :: rest)%list /\
          tested = (before ++ [id])%list /\
          forallb (fun d => negb (works studio d)) before = true /\
          works studio id = true
   else tested = order /\
        forallb (fun d => negb (works studio d)) tested = true).
Proof.
  apply (devices_tested_in_priority_order studio "Webcam").
  - reflexivity.
  - reflexivity.
  - discriminate.
Defined.

End AudioCaptureRuns.

(* ================================================================== *)
(** * Properties of the configuration file *)

Section ConfigFacts.

Import Config.

Variable py : Python.

Lemma lookup_assign_same (key : string) (v : Value) (d : Table) :
  lookup key (assign key v d) = Some v.
Proof.
  induction d as [|[k x] d IH]; simpl.
  - rewrite String.eqb_refl. reflexivity.
  - destruct (String.eqb k key) eqn:E; simpl; rewrite E; [reflexivity | exact IH].
Qed.

Lemma lookup_assign_other (key other : string) (v : Value) (d : Table) :
  other <> key -> lookup other (assign key v d) = lookup other d.
Proof.
  intros Hneq. induction d as [|[k x] d IH]; simpl.
  - destruct (String.eqb key other) eqn:E; [|reflexivity].
    apply String.eqb_eq in E. congruence.
  - destruct (String.eqb k key) eqn:E; simpl.
    + apply String.eqb_eq in E. subst k.
      destruct (String.eqb key other) eqn:E'; [|reflexivity].
      apply String.eqb_eq in E'. congruence.
    + destruct (String.eqb k other); [reflexivity | exact IH].
Qed.

(** Case analysis along a chain of [bind] and [and_then]. *)
Ltac chain H :=
  repeat match type of H with
         | context [match ?x with _ => _ end] =>
             destruct x eqn:?; simpl in H; try discriminate H;
             try congruence
         end.

Lemma load_audio_keys (d : Table) (a : AudioConfig) :
  load_audio py d = Returns a ->
  has_keys d "audio" ["device"; "samplerate"; "channels"].
Proof.
  unfold load_audio, section_of, has_keys, str_field, int_field. intros H.
  destruct (lookup "audio" d) as [[]|]; simpl in H; try discriminate H;
    chain H.
  eexists. split; [reflexivity|]. repeat constructor; eauto.
Qed.

Lemma load_snippet_keys (d : Table) (c : SnippetConfig) :
  load_snippet py d = Returns c -> has_keys d "snippet" ["seconds"].
Proof.
  unfold load_snippet, section_of, has_keys, int_field. intros H.
  destruct (lookup "snippet" d) as [[]|]; simpl in H; try discriminate H;
    chain H.
  eexists. split; [reflexivity|]. repeat constructor; eauto.
Qed.

Lemma load_stt_keys (d : Table) (c : STTConfig) :
  load_stt py d = Returns c ->
  has_keys d "stt" ["model"; "compute_type"; "beam_size"; "language"].
Proof.
  unfold load_stt, section_of, has_keys, str_field, int_field,
    read_initial_prompt. intros H.
  destruct (lookup "stt" d) as [[]|]; simpl in H; try discriminate H;
    chain H;
    eexists; (split; [reflexivity|]); repeat constructor; eauto.
Qed.

Lemma load_retention_keys (d : Table) (c : RetentionConfig) :
  load_retention py d = Returns c ->
  has_keys d "retention" ["recordings_days"; "logs_days"].
Proof.
  unfold load_retention, section_of, has_keys, int_field. intros H.
  destruct (lookup "retention" d) as [[]|]; simpl in H; try discriminate H;
    chain H.
  eexists. split; [reflexivity|]. repeat constructor; eauto.
Qed.

Lemma load_document_parts (d : Table) (cfg : AppConfig) :
  load_document py d = Returns cfg ->
  require_sections required_sections d = Returns tt /\
  load_audio py d = Returns (audio cfg) /\
  load_snippet py d = Returns (snippet cfg) /\
  load_stt py d = Returns (stt cfg) /\
  load_retention py d = Returns (retention cfg).
Proof.
  unfold load_document. intros H.
  destruct (require_sections required_sections d) as [[]| |];
    simpl in H; try discriminate H.
  destruct (load_audio py d); simpl in H; try discriminate H.
  destruct (load_snippet py d); simpl in H; try discriminate H.
  destruct (load_stt py d); simpl in H; try discriminate H.
  destruct (load_retention py d); simpl in H; try discriminate H.
  injection H as <-. repeat split.
Qed.

(** A configuration is returned only for a file that exists, parses, and
    holds each of the four sections as a table with every required key;
    in every other case [load_config] does not return a configuration. *)
Theorem loaded_config_has_every_key (file : File) (cfg : AppConfig) :
  load_config py file = Returns cfg ->
  exists d : Table,
    file = Document d /\
    Forall (fun entry => has_keys d (fst entry) (snd entry)) required_keys.
Proof.
  destruct file as [| |d]; simpl; try discriminate. intros H.
  exists d. split; [reflexivity|].
  apply load_document_parts in H as [_ [Ha [Hs [Ht Hr]]]].
  repeat constructor; simpl.
  - apply (load_audio_keys _ _ Ha).
  - apply (load_snippet_keys _ _ Hs).
  - apply (load_stt_keys _ _ Ht).
  - apply (load_retention_keys _ _ Hr).
Qed.

(** The parts other than audio read their own section only. *)
Lemma other_parts_after_assign (d : Table) (v : Value) :
  load_snippet py (assign "audio" v d) = load_snippet py d /\
  load_stt py (assign "audio" v d) = load_stt py d /\
  load_retention py (assign "audio" v d) = load_retention py d.
Proof.
  unfold load_snippet, load_stt, load_retention, section_of.
  rewrite !lookup_assign_other by discriminate. repeat split.
Qed.

Lemma sections_after_assign (d : Table) (v : Value) :
  require_sections required_sections d = Returns tt ->
  require_sections required_sections (assign "audio" v d) = Returns tt.
Proof.
  unfold required_sections. simpl.
  rewrite lookup_assign_same, !lookup_assign_other by discriminate.
  destruct (lookup "audio" d); [|discriminate]. exact (fun H => H).
Qed.

Lemma audio_after_assign (d : Table) (entries : Table) (a : AudioConfig)
  (new_device : string) :
  lookup "audio" d = Some (VTable entries) ->
  load_audio py d = Returns a ->
  load_audio py (assign "audio"
                   (VTable (assign "device" (VStr new_device) entries)) d) =
  Returns (Audio new_device (samplerate a) (channels a)).
Proof.
  unfold load_audio, section_of, str_field, int_field.
  intros Hl. rewrite Hl, lookup_assign_same. simpl.
  rewrite lookup_assign_same, !lookup_assign_other by discriminate.
  intros H. chain H. simpl.
  destruct (to_int py v0); simpl in *; try discriminate H.
  destruct (to_int py v1); simpl in *; try discriminate H.
  injection H as <-. reflexivity.
Qed.

(** Saving a device and loading again: for a file that loads, when the
    write completes, [update_audio_device] returns, and [load_config] on
    the file it leaves returns the same configuration with [audio.device]
    replaced by the saved device and nothing else changed. *)
Theorem update_then_load (file : File) (cfg : AppConfig)
  (new_device : string) :
  load_config py file = Returns cfg ->
  fst (update_audio_device file Written new_device) = Returns tt /\
  load_config py (snd (update_audio_device file Written new_device)) =
  Returns (App (Audio new_device (samplerate (audio cfg))
                      (channels (audio cfg)))
               (snippet cfg) (stt cfg) (retention cfg)).
Proof.
  destruct file as [| |d]; simpl; try discriminate. intros H.
  apply load_document_parts in H as [Hsec [Ha [Hs [Ht Hr]]]].
  destruct (load_audio_keys _ _ Ha) as [entries [Hl _]].
  rewrite Hl. simpl. rewrite Hl. simpl. split; [reflexivity|].
  unfold load_document.
  rewrite (sections_after_assign _ _ Hsec). simpl.
  rewrite (audio_after_assign _ _ _ new_device Hl Ha). simpl.
  destruct (other_parts_after_assign d
              (VTable (assign "device" (VStr new_device) entries)))
    as [-> [-> ->]].
  rewrite Hs, Ht, Hr. reflexivity.
Qed.

End ConfigFacts.

Section ConfigRuns.

Import Config.

Example sample_document_loads :
  load_config sample_python (Document sample_document) =
  Returns (App (Audio "" 16000 1) (Snippet 8)
               (Stt "small" "int8" 5 "de" None) (Retention 30 7)).
Proof. reflexivity. Qed.

(** A file without [audio] can be updated, and then does not load. *)
Example update_creates_unloadable_audio :
  let file := Document (tl sample_document) in
  load_config sample_python file = Exits (MissingSection "audio") /\
  fst (update_audio_device file Written "USB Headset") = Returns tt /\
  load_config sample_python
              (snd (update_audio_device file Written "USB Headset")) =
  Exits (MissingKey "audio" "samplerate").
Proof. repeat split. Qed.

(** The write is not atomic: a write that fails after the file was
    opened leaves the emptied file, which no longer loads. *)
Example failed_write_loses_the_file :
  let file := Document sample_document in
  let after := update_audio_device file (WriteFails (Document []) None)
                                   "USB Headset" in
  fst after = Raises "OSError" /\
  snd after = Document [] /\
  load_config sample_python (snd after) = Exits (MissingSection "audio").
Proof. repeat split. Qed.

Lemma loaded_config_has_every_key_witness :
  exists d : Table,
    Document sample_document = Document d /\
    Forall (fun entry => has_keys d (fst entry) (snd entry)) required_keys.
Proof.
  apply (loaded_config_has_every_key sample_python
           (Document sample_document)
           (App (Audio "" 16000 1) (Snippet 8)
                (Stt "small" "int8" 5 "de" None) (Retention 30 7))).
  reflexivity.
Defined.

Lemma update_then_load_witness :
  fst (update_audio_device (Document sample_document) Written "USB Headset") =
    Returns tt /\
  load_config sample_python
    (snd (update_audio_device (Document sample_document) Written "USB Headset")) =
  Returns (App (Audio "USB Headset" 16000 1) (Snippet 8)
               (Stt "small" "int8" 5 "de" None) (Retention 30 7)).
Proof.
  apply (update_then_load sample_python (Document sample_document)
           (App (Audio "" 16000 1) (Snippet 8)
                (Stt "small" "int8" 5 "de" None) (Retention 30 7))
           "USB Headset").
  reflexivity.
Defined.

End ConfigRuns.

(* ================================================================== *)
(** * Properties of the fake background service *)

Section FakeBackgroundFacts.

Import FakeBackground.

Variable running_at : nat -> bool.



End FakeBackgroundFacts.

Section FakeBackgroundRuns.

Import FakeBackground.


(** A worker that is never stopped sends eleven messages. *)
Example undisturbed_worker_sends_eleven :
  List.length (fst (_background_worker (fun _ => true))) = 11%nat /\
  last (fst (_background_worker (fun _ => true))) "" = final_message.
Proof. split; reflexivity. Qed.

End FakeBackgroundRuns.

(* ================================================================== *)
(** * Properties of the preflight checks *)

Section DoctorFacts.

Import Doctor.

Lemma check_dirs_hint (env : Env) (dirs : list string) :
  fst (check_dirs env dirs) = false ->
  exists hint, snd (check_dirs env dirs) = Some hint /\ hint <> "".
Proof.
  induction dirs as [|d dirs IH]; simpl; [discriminate|].
  destruct (subdir_usable env d); simpl;
    [|intros _; eexists; split; [reflexivity | discriminate]].
  destruct (subdir_writable env d); simpl;
    [exact IH | intros _; eexists; split; [reflexivity | discriminate]].
Qed.

(** A failed path check always comes with a hint. *)
Lemma check_paths_hint (env : Env) :
  fst (_check_paths env) = false ->
  exists hint, snd (_check_paths env) = Some hint /\ hint <> "".
Proof.
  unfold _check_paths.
  destruct (data_dir_usable env); cbn [negb];
    [|intros _; simpl; eexists; split; [reflexivity | discriminate]].
  apply check_dirs_hint.
Qed.

(** A failed model check always comes with a hint. *)
Lemma check_stt_model_hint (env : Env) (h : option string) :
  _check_stt_model env = Returns (false, h) ->
  exists hint, h = Some hint /\ hint <> "".
Proof.
  unfold _check_stt_model.
  destruct (faster_whisper_installed env); cbn [negb];
    [|intros [= <-]; eexists; split; [reflexivity | discriminate]].
  destruct (Config.load_config (python env) (config_file env));
    try discriminate;
    match goal with |- context [whisper env ?n] =>
      destruct (whisper env n) end;
    intros [= <-]; eexists; (split; [reflexivity | discriminate]).
Qed.

(** A failed microphone check always comes with a hint. *)
Lemma check_microphone_hint (env : Env) (h d : option string) :
  fst (_check_microphone env) = Returns (false, h, d) ->
  exists hint, h = Some hint /\ hint <> "".
Proof.
  unfold _check_microphone.
  destruct (Config.load_config (python env) (config_file env)) as [cfg|r|ty];
    simpl; try discriminate.
  - pose proof (check_microphone_shape (host env)
                  (Config.device (Config.audio cfg))) as Hsh.
    cbv zeta in Hsh.
    destruct (fst (AudioCapture.check_microphone (host env)
                     (Config.device (Config.audio cfg))))
      as [[ok hint] dev].
    simpl in *. intros [= -> <- <-]. apply Hsh.
  - intros [= <- <-]. eexists. split; [reflexivity | discriminate].
Qed.

(** The manifest is looked at by [_check_requirements] only. *)
Lemma other_checks_ignore_manifest (present : bool) (env : Env) :
  _check_paths (with_requirements present env) = _check_paths env /\
  _check_stt_model (with_requirements present env) = _check_stt_model env /\
  _check_microphone (with_requirements present env) = _check_microphone env.
Proof.
  split; [|split]; reflexivity.
Qed.

(** Closes a goal about outcomes once every check has been decided. *)
Ltac decide_outcome :=
  repeat match goal with
         | H : exists _, _ |- _ => destruct H
         | H : _ /\ _ |- _ => destruct H
         | H : _ \/ _ |- _ => destruct H
         | H : Returns _ = Returns ?r |- _ =>
             is_var r; injection H as <-; simpl in *
         end;
  try discriminate; try congruence;
  repeat split; eauto;
  try (left; reflexivity);
  try (right; split; eauto).

(** The run of [_perform_checks], by the outcome of each check. *)
Lemma perform_checks_run (env : Env) :
  _perform_checks env =
  if negb (fst (_check_paths env)) then
    (Returns (Result false (Some "PATH_NOT_WRITABLE")
                     (snd (_check_paths env)) false false),
     [check_paths])
  else
    match _check_stt_model env with
    | SystemExit =>
        (SystemExit, [check_paths; check_requirements; check_stt_model])
    | Returns (false, h) =>
        (Returns (Result false (Some "MODEL_NOT_LOADABLE") h true false),
         [check_paths; check_requirements; check_stt_model])
    | Returns (true, _) =>
        match fst (_check_microphone env) with
        | SystemExit =>
            (SystemExit,
             [check_paths; check_requirements; check_stt_model;
              check_microphone])
        | Returns (false, mh, _) =>
            (Returns (Result false (Some "MIC_NOT_AVAILABLE") mh false true),
             [check_paths; check_requirements; check_stt_model;
              check_microphone])
        | Returns (true, _, _) =>
            (Returns (Result true None None true true),
             [check_paths; check_requirements; check_stt_model;
              check_microphone])
        end
    end.
Proof.
  unfold _perform_checks, bind, called, ret.
  destruct (fst (_check_paths env)); simpl; [|reflexivity].
  destruct (_check_stt_model env) as [[[|] h]|]; simpl; try reflexivity.
  destruct (fst (_check_microphone env)) as [[[[|] mh] d]|]; reflexivity.
Qed.

(** C8. [_perform_checks] calls the path, manifest, model and microphone
    checks in this order and stops at the first of the path, model and
    microphone checks that fails, returning [success=false] with the code
    of that check and the hint the check gave, which is never missing; a
    missing manifest changes neither the result nor the checks that run;
    [success=true] is returned exactly when the path, model and
    microphone checks pass; and the only way not to return a result is
    the [sys.exit(1)] of [load_config] inside the model or the microphone
    check. *)
Theorem perform_checks_short_circuits (env : Env) :
  let paths := _check_paths env in
  let stt := _check_stt_model env in
  let mic := fst (_check_microphone env) in
  (fst paths = false ->
   _perform_checks env =
     (Returns (Result false (Some "PATH_NOT_WRITABLE") (snd paths)
                      false false),
      [check_paths]) /\
   exists hint, snd paths = Some hint /\ hint <> "") /\
  (forall h, fst paths = true -> stt = Returns (false, h) ->
   _perform_checks env =
     (Returns (Result false (Some "MODEL_NOT_LOADABLE") h true false),
      [check_paths; check_requirements; check_stt_model]) /\
   exists hint, h = Some hint /\ hint <> "") /\
  (forall h mh d,
   fst paths = true -> stt = Returns (true, h) ->
   mic = Returns (false, mh, d) ->
   _perform_checks env =
     (Returns (Result false (Some "MIC_NOT_AVAILABLE") mh false true),
      [check_paths; check_requirements; check_stt_model; check_microphone])
   /\
   exists hint, mh = Some hint /\ hint <> "") /\
  (forall h mh d,
   fst paths = true -> stt = Returns (true, h) ->
   mic = Returns (true, mh, d) ->
   _perform_checks env =
     (Returns (Result true None None true true),
      [check_paths; check_requirements; check_stt_model; check_microphone]))
  /\
  ((exists r, fst (_perform_checks env) = Returns r /\ success r = true) <->
   fst paths = true /\
   (exists h, stt = Returns (true, h)) /\
   (exists mh d, mic = Returns (true, mh, d))) /\
  (fst (_perform_checks env) = SystemExit <->
   fst paths = true /\
   (stt = SystemExit \/
    ((exists h, stt = Returns (true, h)) /\ mic = SystemExit))) /\
  (forall present : bool,
     _perform_checks (with_requirements present env) = _perform_checks env).
Proof.
  intros paths stt mic.
  pose proof (perform_checks_run env) as Hrun. fold paths stt mic in Hrun.
  pose proof (other_checks_ignore_manifest) as Hman.
  pose proof (check_paths_hint env) as Hph. fold paths in Hph.
  pose proof (check_stt_model_hint env) as Hsh. fold stt in Hsh.
  pose proof (check_microphone_hint env) as Hmh. fold mic in Hmh.
  split; [|split; [|split; [|split; [|split; [|split]]]]].
  - intros Hp. split; [|apply check_paths_hint; exact Hp].
    rewrite Hrun, Hp. reflexivity.
  - intros h Hp Hs.
    split; [|apply (check_stt_model_hint env); exact Hs].
    rewrite Hrun, Hp, Hs. reflexivity.
  - intros h mh d Hp Hs Hm.
    split; [|apply (check_microphone_hint env mh d); exact Hm].
    rewrite Hrun, Hp, Hs, Hm. reflexivity.
  - intros h mh d Hp Hs Hm. rewrite Hrun, Hp, Hs, Hm. reflexivity.
  - rewrite Hrun. clear.
    destruct (fst paths); simpl;
      [destruct stt as [[[|] h]|]; simpl;
       [destruct mic as [[[[|] mh] d]|]; simpl| |]|];
      split; intros H; decide_outcome.
  - rewrite Hrun. clear.
    destruct (fst paths); simpl;
      [destruct stt as [[[|] h]|]; simpl;
       [destruct mic as [[[[|] mh] d]|]; simpl| |]|];
      split; intros H; decide_outcome.
  - intros present. rewrite Hrun, perform_checks_run.
    destruct (other_checks_ignore_manifest present env) as [-> [-> ->]].
    reflexivity.
Qed.

End DoctorFacts.

Section DoctorRuns.

Import Doctor.

(** A machine where only the manifest is missing passes. *)
Example missing_manifest_passes :
  _perform_checks (with_requirements false healthy) =
  (Returns (Result true None None true true),
   [check_paths; check_requirements; check_stt_model; check_microphone]).
Proof. reflexivity. Qed.

(** A machine whose logs directory is read-only stops at the first check. *)
Example read_only_logs_fails :
  _perform_checks
    (with_writable (fun d => negb (String.eqb d "logs")) healthy) =
  (Returns (Result false (Some "PATH_NOT_WRITABLE")
                   (Some "Cannot write to logs/ directory") false false),
   [check_paths]).
Proof. reflexivity. Qed.

(** A configuration file that lost a section ends the preflight inside
    the model check, without a result. *)
Example unloadable_config_exits :
  _perform_checks
    (with_config (Config.Document (tl Config.sample_document)) healthy) =
  (SystemExit, [check_paths; check_requirements; check_stt_model]).
Proof. reflexivity. Qed.

(** The working headset found by the microphone check is saved. *)
Example working_device_is_saved :
  fst (_check_microphone healthy) =
    Returns (true, None, Some "USB Headset") /\
  Config.load_config Config.sample_python (snd (_check_microphone healthy)) =
    Config.Returns
      (Config.App (Config.Audio "USB Headset" 16000 1) (Config.Snippet 8)
                  (Config.Stt "small" "int8" 5 "de" None)
                  (Config.Retention 30 7)).
Proof. split; reflexivity. Qed.

End DoctorRuns.

(* ================================================================== *)
(** * Further properties of the preflight checks *)

Section DoctorMore.

Import Doctor.

Lemma check_dirs_passes_iff (env : Env) (dirs : list string) :
  fst (check_dirs env dirs) = true <->
  forall d, In d dirs -> subdir_usable env d = true /\
                         subdir_writable env d = true.
Proof.
  induction dirs as [|d dirs IH]; simpl.
  - split; [intros _ d [] | reflexivity].
  - destruct (subdir_usable env d) eqn:U; simpl.
    + destruct (subdir_writable env d) eqn:W; simpl.
      * rewrite IH. split.
        -- intros H x [<- | Hx]; [split; assumption | apply H; exact Hx].
        -- intros H x Hx. apply H. right. exact Hx.
      * split; [discriminate|]. intros H.
        destruct (H d (or_introl eq_refl)) as [_ Hw]. congruence.
    + split; [discriminate|]. intros H.
      destruct (H d (or_introl eq_refl)) as [Hu _]. congruence.
Qed.

(** The path check passes exactly when the data directory and each of
    the five required directories can be created and written. *)
Theorem check_paths_passes_iff (env : Env) :
  fst (_check_paths env) = true <->
  data_dir_usable env = true /\
  forall d, In d required_dirs ->
            subdir_usable env d = true /\ subdir_writable env d = true.
Proof.
  unfold _check_paths. destruct (data_dir_usable env); cbn [negb].
  - rewrite check_dirs_passes_iff. tauto.
  - simpl. split; [discriminate | intros [H _]; discriminate H].
Qed.

Lemma check_dirs_first_unwritable (env : Env) (before after : list string)
  (d : string) :
  (forall x, In x before -> subdir_usable env x = true /\
                            subdir_writable env x = true) ->
  subdir_usable env d = true ->
  subdir_writable env d = false ->
  check_dirs env (before ++ d :: after) =
  (false, Some ("Cannot write to " ++ d ++ "/ directory")).
Proof.
  intros Hbefore Hu Hw. induction before as [|b before IH]; simpl.
  - rewrite Hu, Hw. reflexivity.
  - destruct (Hbefore b (or_introl eq_refl)) as [-> ->]. simpl.
    apply IH. intros x Hx. apply Hbefore. right. exact Hx.
Qed.

(** When directories are read-only, the hint of the path check names the
    first of them in the order recordings, transcripts, db, logs, cache,
    and the directories after it are not touched. *)
Theorem check_paths_names_first_unwritable (env : Env)
  (before after : list string) (d : string) :
  required_dirs = (before ++ d :: after)%list ->
  data_dir_usable env = true ->
  (forall x, In x before -> subdir_usable env x = true /\
                            subdir_writable env x = true) ->
  subdir_usable env d = true ->
  subdir_writable env d = false ->
  _check_paths env = (false, Some ("Cannot write to " ++ d ++ "/ directory"))
  /\
  forall other : Env,
    data_dir_usable other = true ->
    (forall x, In x (before ++ [d]) ->
               subdir_usable other x = subdir_usable env x /\
               subdir_writable other x = subdir_writable env x) ->
    _check_paths other = _check_paths env.
Proof.
  intros Hdirs Hdata Hbefore Hu Hw.
  assert (Henv : _check_paths env =
                 (false, Some ("Cannot write to " ++ d ++ "/ directory"))).
  { unfold _check_paths. rewrite Hdata, Hdirs. cbn [negb].
    apply check_dirs_first_unwritable; assumption. }
  split; [exact Henv|].
  intros other Hodata Hsame. rewrite Henv.
  unfold _check_paths. rewrite Hodata, Hdirs. cbn [negb].
  apply check_dirs_first_unwritable.
  - intros x Hx.
    destruct (Hsame x (in_or_app _ _ _ (or_introl Hx))) as [-> ->].
    apply Hbefore. exact Hx.
  - assert (Hd : In d (before ++ [d])) by (apply in_or_app; right; left; reflexivity).
    destruct (Hsame d Hd) as [-> _]. exact Hu.
  - assert (Hd : In d (before ++ [d])) by (apply in_or_app; right; left; reflexivity).
    destruct (Hsame d Hd) as [_ ->]. exact Hw.
Qed.

(** The fields of every doctor result that is returned agree with each
    other: success means no error code, no hint and both flags set; a
    failure carries one of the three codes; [model_ok] is cleared by a
    path or model failure only and [mic_ok] by a path or microphone
    failure only. *)
Theorem doctor_result_is_consistent (env : Env) (r : DoctorCheckResult) :
  fst (_perform_checks env) = Returns r ->
  (success r = true <-> error_code r = None) /\
  (success r = true ->
   error_hint r = None /\ mic_ok r = true /\ model_ok r = true) /\
  (success r = false ->
   error_code r = Some "PATH_NOT_WRITABLE" \/
   error_code r = Some "MODEL_NOT_LOADABLE" \/
   error_code r = Some "MIC_NOT_AVAILABLE") /\
  (model_ok r = false <->
   error_code r = Some "PATH_NOT_WRITABLE" \/
   error_code r = Some "MODEL_NOT_LOADABLE") /\
  (mic_ok r = false <->
   error_code r = Some "PATH_NOT_WRITABLE" \/
   error_code r = Some "MIC_NOT_AVAILABLE").
Proof.
  rewrite perform_checks_run.
  destruct (fst (_check_paths env)); simpl;
    [destruct (_check_stt_model env) as [[[|] h]|]; simpl;
     [destruct (fst (_check_microphone env)) as [[[[|] mh] d]|]; simpl| |]|];
    try discriminate; intros [= <-]; simpl;
    repeat split; intros; try discriminate; auto;
    repeat match goal with
           | H : _ \/ _ |- _ => destruct H
           end; try discriminate.
Qed.

(** Every failed preflight result carries an error hint, and the hint is
    not empty: the texts of the path and model checks, the hint of
    [check_microphone] with its fallback for errors without text, or
    "Microphone check error: ..." when [load_config] raises there. *)
Theorem failed_preflight_has_hint (env : Env) (r : DoctorCheckResult) :
  fst (_perform_checks env) = Returns r ->
  success r = false ->
  exists hint, error_hint r = Some hint /\ hint <> "".
Proof.
  rewrite perform_checks_run.
  destruct (fst (_check_paths env)) eqn:Hp; simpl.
  - destruct (_check_stt_model env) as [[[|] h]|] eqn:Hs; simpl;
      try discriminate.
    + destruct (fst (_check_microphone env)) as [[[[|] mh] d]|] eqn:Hm;
        simpl; try discriminate; intros [= <-]; simpl; try discriminate.
      intros _. apply (check_microphone_hint env mh d). exact Hm.
    + intros [= <-] _. simpl. apply (check_stt_model_hint env). exact Hs.
  - intros [= <-] _. simpl. apply check_paths_hint. exact Hp.
Qed.

End DoctorMore.

Section DoctorMoreRuns.

Import Doctor.

Lemma check_paths_names_first_unwritable_witness :
  let env := with_writable
               (fun d => negb (String.eqb d "db" || String.eqb d "cache"))
               healthy in
  _check_paths env = (false, Some "Cannot write to db/ directory") /\
  forall other : Env,
    data_dir_usable other = true ->
    (forall x, In x (["recordings"; "transcripts"] ++ ["db"]) ->
               subdir_usable other x = subdir_usable env x /\
               subdir_writable other x = subdir_writable env x) ->
    _check_paths other = _check_paths env.
Proof.
  intros env.
  apply (check_paths_names_first_unwritable env
           ["recordings"; "transcripts"] ["logs"; "cache"] "db").
  - reflexivity.
  - reflexivity.
  - intros x [<- | [<- | []]]; split; reflexivity.
  - reflexivity.
  - reflexivity.
Defined.

Lemma doctor_result_is_consistent_witness :
  let r := Result false (Some "MIC_NOT_AVAILABLE")
                  (Some "No working microphone device found") false true in
  (success r = true <-> error_code r = None) /\
  (success r = true ->
   error_hint r = None /\ mic_ok r = true /\ model_ok r = true) /\
  (success r = false ->
   error_code r = Some "PATH_NOT_WRITABLE" \/
   error_code r = Some "MODEL_NOT_LOADABLE" \/
   error_code r = Some "MIC_NOT_AVAILABLE") /\
  (model_ok r = false <->
   error_code r = Some "PATH_NOT_WRITABLE" \/
   error_code r = Some "MODEL_NOT_LOADABLE") /\
  (mic_ok r = false <->
   error_code r = Some "PATH_NOT_WRITABLE" \/
   error_code r = Some "MIC_NOT_AVAILABLE").
Proof.
  intros r.
  apply (doctor_result_is_consistent
           (with_host AudioCapture.muted healthy) r).
  reflexivity.
Defined.

Lemma failed_preflight_has_hint_witness :
  exists hint,
    error_hint (Result false (Some "MIC_NOT_AVAILABLE")
                       (Some "No working microphone device found")
                       false true) = Some hint /\
    hint <> "".
Proof.
  apply (failed_preflight_has_hint (with_host AudioCapture.muted healthy)).
  - reflexivity.
  - reflexivity.
Defined.

End DoctorMoreRuns.

(* ================================================================== *)
(** * The snippet tracker under interleaving *)

Section TrackerLocksFacts.

Import SnippetTracker TrackerLocks.

Context {T : Type} {S : Seconds T}.

(** [stop] as one step is its two blocks with nothing in between. *)
Lemma stop_is_both_blocks (s : t T) :
  stop s = if is_running s then stop_second (fst (stop_first s)) else s.
Proof.
  unfold stop, stop_first, stop_second. destruct (is_running s); reflexivity.
Qed.

Lemma run_block_threshold (w : Shared T) (b : Block) :
  threshold_seconds (tracker (run_block w b)) = threshold_seconds (tracker w).
Proof.
  destruct w as [[thr run pau cum trg] n].
  destruct b; simpl;
    unfold start, pause, resume, stop_first, stop_second, worker_iteration;
    simpl;
    repeat match goal with
           | |- context [if ?b then _ else _] => destruct b; simpl
           | |- context [match ?n with O => _ | Datatypes.S _ => _ end] =>
               destruct n; simpl
           end; reflexivity.
Qed.

(** Under any interleaving of the locked blocks of [start], [pause],
    [resume], [stop] and the worker on a new service: whenever
    [is_running] is False and no call of [stop] is between its two
    blocks, the tracker is in the state [__init__] left it in, not paused,
    with no accumulated time and the flag clear. *)
Theorem idle_tracker_is_reset (threshold : T) (blocks : list Block) :
  let w := run_blocks (fresh threshold) blocks in
  is_running (tracker w) = false ->
  stopping w = 0%nat ->
  tracker w = init threshold.
Proof.
  assert (Hinv : forall (blocks : list Block) (w : Shared T),
            threshold_seconds (tracker w) = threshold ->
            (is_running (tracker w) = false -> stopping w = 0%nat ->
             tracker w = init threshold) ->
            is_running (tracker (run_blocks w blocks)) = false ->
            stopping (run_blocks w blocks) = 0%nat ->
            tracker (run_blocks w blocks) = init threshold).
  { clear blocks. induction blocks as [|b blocks IH]; intros w Hthr Hidle.
    - exact Hidle.
    - change (run_blocks w (b :: blocks))
        with (run_blocks (run_block w b) blocks).
      apply IH; [rewrite run_block_threshold; exact Hthr|].
      destruct w as [[thr run pau cum trg] n]. simpl in Hthr. subst thr.
      simpl in Hidle.
      destruct run.
      + destruct b; simpl;
          unfold pause, resume, stop_first, stop_second, worker_iteration;
          simpl;
          repeat match goal with
                 | |- context [if ?b then _ else _] => destruct b; simpl
                 end;
          try (intros H; discriminate H);
          try (intros _ H; discriminate H).
        destruct n as [|[|n]]; simpl; intros H1 H2;
          try discriminate; reflexivity.
      + destruct b; simpl;
          unfold start, pause, resume, stop_first, stop_second,
            worker_iteration; simpl;
          try (intros H; discriminate H); try exact Hidle.
        destruct n as [|[|n]]; simpl; intros H1 H2;
          try discriminate; try reflexivity.
        apply Hidle; [reflexivity | exact H2]. }
  intros w. apply Hinv; [reflexivity|]. intros _ _. reflexivity.
Qed.

End TrackerLocksFacts.

Section TrackerLocksRuns.

Import SnippetTracker TrackerLocks.

(** Between the two blocks of [stop] the tracker is not running and still
    holds the accumulated time of the episode. *)
Example between_the_blocks_of_stop :
  let w := run_blocks (fresh Binary64.eight)
                      [BStart; BTick; BTick; BStopFirst; BTick] in
  is_running (tracker w) = false /\ stopping w = 1%nat /\
  tracker w <> init Binary64.eight.
Proof.
  vm_compute. repeat split. intros H. discriminate H.
Qed.

Lemma idle_tracker_is_reset_witness :
  tracker (run_blocks (fresh Binary64.eight)
                      [BStart; BTick; BPause; BStopFirst; BTick; BResume;
                       BStopSecond; BTick]) =
  init Binary64.eight.
Proof.
  apply (idle_tracker_is_reset Binary64.eight
           [BStart; BTick; BPause; BStopFirst; BTick; BResume;
            BStopSecond; BTick]).
  - reflexivity.
  - reflexivity.
Defined.

End TrackerLocksRuns.
